(** * vscode-sailpoint-identitynow: tree pagination, job orchestration, name cache

    A shallow embedding of
    - the pageable folder nodes [AccessProfilesTreeItem] and [RolesTreeItem]
      of [models/IdentityNowTreeItem.ts],
    - the administrative operations of [services/TreeManager.ts],
    - the name-to-id cache [AccessProfileNameToIdCacheService],
    followed by the properties established about them. *)

From stdpp Require Import gmap strings list sorting.
From Stdlib Require Import ZArith Lia Ascii.

Set Default Proof Using "Type".

(** ** Results of fallible calls

    A rejected promise or a thrown exception is [Throw]; a value is [Ok]. *)

Inductive result (A : Type) : Type :=
| Ok (a : A)
| Throw (e : string).
Arguments Ok {A} a.
Arguments Throw {A} e.

(** ** The numbers the pagination code handles

    [_total] is assigned from [Number(response.headers[TOTAL_COUNT_HEADER])]:
    an integer when the header carries one, [NaN] when it is absent or
    malformed.  [strict_eq_zero n] is [n === 0], [gt_length n k] is
    [n > k] for an array length [k]; both are false on [NaN]. *)

Module JsNumber.

Inductive number : Type :=
| Num (z : Z)
| NaN.

Definition strict_eq_zero (n : number) : bool :=
match n with
| Num z => (z =? 0)%Z
| NaN => false
end.

Definition gt_length (n : number) (k : nat) : bool :=
match n with
| Num z => (Z.of_nat k <? z)%Z
| NaN => false
end.

End JsNumber.
Export JsNumber.

(** ** Tree items

    Only the node kinds that can appear among the children of a pageable
    folder are kept.  The tenant fields every node copies from its parent
    are constant along a run and left out; [LoadMoreNode] keeps a reference
    to its parent folder in the source, which is the folder itself here. *)

Inductive BaseTreeItem : Type :=
| AccessProfileTreeItem (label id : string)
| RoleTreeItem (label id : string)
| LoadMoreNode
| MessageNode (label : string).

(** A real collection item, as opposed to a synthetic trailing node. *)
Definition is_resource (n : BaseTreeItem) : bool :=
  match n with
  | AccessProfileTreeItem _ _ | RoleTreeItem _ _ => true
  | LoadMoreNode | MessageNode _ => false
  end.

(** ** The listing endpoint, as the loader sees it *)

(** One element of [response.data]. *)
Record Resource : Type := mkResource { name : string; id : string }.

(** The four arguments of [paginatedSearchAccessProfiles] /
    [paginatedSearchRoles]: filters, limit, offset, count. *)
Record Request : Type := mkRequest {
  req_filters : string;
  req_limit : Z;
  req_offset : Z;
  req_count : bool
}.

(** [data] is [response.data]; [totalCount] is
    [Number(response.headers[TOTAL_COUNT_HEADER])]. *)
Record Response : Type := mkResponse {
  data : list Resource;
  totalCount : number
}.

Definition Search : Type := Request -> result Response.

(** ** Pageable folder nodes *)

Record PageableNode : Type := mkPageableNode {
  currentOffset : Z;
  limit : Z;
  filters : string;
  children : list BaseTreeItem;
  _total : number
}.

Definition set_children (c : list BaseTreeItem) (s : PageableNode) : PageableNode :=
  mkPageableNode (currentOffset s) (limit s) (filters s) c (_total s).

Definition set_total (t : number) (s : PageableNode) : PageableNode :=
  mkPageableNode (currentOffset s) (limit s) (filters s) (children s) t.

Definition set_currentOffset (o : Z) (s : PageableNode) : PageableNode :=
  mkPageableNode o (limit s) (filters s) (children s) (_total s).

Definition set_limit (l : Z) (s : PageableNode) : PageableNode :=
  mkPageableNode (currentOffset s) l (filters s) (children s) (_total s).

(** [Array.prototype.pop], for its effect on the array. *)
Definition pop {A : Type} (l : list A) : list A := removelast l.

(** The body shared, word for word, by [AccessProfilesTreeItem] and
    [RolesTreeItem]; the two classes differ in the item constructor and in
    the label of the empty-state message. *)
Module Pageable.
Section Pageable.

Variable mkItem : string -> string -> BaseTreeItem.
Variable emptyLabel : string.

(** Field initialisers and constructor: [limit = 250]. *)
Definition new : PageableNode :=
  mkPageableNode 0 250 "*" [] (Num 0).

Definition reset (s : PageableNode) : PageableNode :=
  set_children [] (set_currentOffset 0 s).

(** [get hasMore()] *)
Definition hasMore (s : PageableNode) : bool :=
  gt_length (_total s) (length (children s)).

(** The first statement of [loadMore]:
    [if (this.children.length > 0) this.children.pop()]. *)
Definition discardTrailing (s : PageableNode) : PageableNode :=
  if (0 <? length (children s))%nat
  then set_children (pop (children s)) s
  else s.

(** The arguments [loadMore] passes to the listing call. *)
Definition request (s : PageableNode) : Request :=
  mkRequest (filters s) (limit s) (currentOffset s)
            (strict_eq_zero (_total s)).

(** What [loadMore] does with a response. *)
Definition accept (response : Response) (s1 : PageableNode) : PageableNode :=
  let s2 := if strict_eq_zero (_total s1)
            then set_total (totalCount response) s1
            else s1 in
  if strict_eq_zero (_total s2)
  then set_children [MessageNode emptyLabel] s2
  else
    let results := map (fun x => mkItem (name x) (id x)) (data response) in
    let s3 := set_children (children s2 ++ results) s2 in
    if hasMore s3
    then set_currentOffset (currentOffset s3 + limit s3)
           (set_children (children s3 ++ [LoadMoreNode]) s3)
    else s3.

(** [loadMore]: the node after the call, and whether the call threw.  The
    progress scope around the body only decorates the tree view. *)
Definition loadMore (search : Search) (s : PageableNode)
  : result unit * PageableNode :=
  let s1 := discardTrailing s in
  match search (request s1) with
  | Throw e => (Throw e, s1)
  | Ok response => (Ok tt, accept response s1)
  end.

(** [getChildren]: loads the first page when nothing is accumulated. *)
Definition getChildren (search : Search) (s : PageableNode)
  : result (list BaseTreeItem) * PageableNode :=
  if (length (children s) =? 0)%nat
  then match loadMore search s with
       | (Ok _, s') => (Ok (children s'), s')
       | (Throw e, s') => (Throw e, s')
       end
  else (Ok (children s), s).

(** A run of [loadMore] calls, the listing endpoint answering the [i]-th
    call with the [i]-th [Search]; a call that throws leaves the node as
    it was after the pop and the run goes on. *)
Fixpoint loadMores (searches : list Search) (s : PageableNode) : PageableNode :=
  match searches with
  | [] => s
  | search :: rest => loadMores rest (snd (loadMore search s))
  end.

(** The requests such a run sends, in order. *)
Fixpoint requests (searches : list Search) (s : PageableNode) : list Request :=
  match searches with
  | [] => []
  | search :: rest =>
      request (discardTrailing s) :: requests rest (snd (loadMore search s))
  end.

End Pageable.
End Pageable.

Module AccessProfilesTreeItem.
Definition new := Pageable.new.
Definition reset := Pageable.reset.
Definition hasMore := Pageable.hasMore.
Definition loadMore := Pageable.loadMore AccessProfileTreeItem "No access profile found".
Definition getChildren := Pageable.getChildren AccessProfileTreeItem "No access profile found".
End AccessProfilesTreeItem.

Module RolesTreeItem.
Definition new := Pageable.new.
Definition reset := Pageable.reset.
Definition hasMore := Pageable.hasMore.
Definition loadMore := Pageable.loadMore RoleTreeItem "No role found".
Definition getChildren := Pageable.getChildren RoleTreeItem "No role found".
End RolesTreeItem.

(** Modelled from the spec: the listing endpoint
    [fetchPage(filter, limit, offset, needTotal) -> { items, totalCount? }]
    of the backend client, which is not part of the sources at hand.  Over a
    remote collection [remote] it answers with the window of [limit] items
    starting at [offset]; the total is present only when asked for. *)
Definition fetchPage (remote : list Resource) : Search :=
  fun req =>
    Ok (mkResponse
          (take (Z.to_nat (req_limit req)) (drop (Z.to_nat (req_offset req)) remote))
          (if req_count req then Num (Z.of_nat (length remote)) else NaN)).

(** A remote collection of ten access profiles, for concrete runs. *)
Definition ten : list Resource :=
  map (fun n => mkResource ("ap" +:+ n) ("id" +:+ n))
      ["0"; "1"; "2"; "3"; "4"; "5"; "6"; "7"; "8"; "9"]%string.

(** The total a [loadMore] call works with once the response is in: the
    response's when none is stored yet, the stored one otherwise. *)
Definition total_after (response : Response) (s : PageableNode) : number :=
  if strict_eq_zero (_total s) then totalCount response else _total s.

(** The accumulated collection items, synthetic nodes left out. *)
Definition items (s : PageableNode) : list BaseTreeItem :=
  filter (fun n => is_resource n = true) (children s).

(** ** Backend jobs and their polling *)

(** [completionStatus] is [null] ([None]) until the task has completed. *)
Record TaskStatusBeta : Type := mkTask {
  task_id : string;
  completionStatus : option string;
  messages : list string
}.

(** What a job-start call answers; [startAccountAggregation] wraps the
    task one level deeper ([job.task.id]). *)
Record Job : Type := mkJob { job_id : string }.
Record LoadAccountsTask : Type := mkLoadAccountsTask { task : Job }.

Record SourceTreeItem : Type := mkSourceTreeItem {
  source_id : string;
  source_label : string;
  tenantId : string;
  tenantName : string
}.

(** [new ISCClient(item.tenantId, item.tenantName)] *)
Record ISCClient : Type := mkISCClient {
  client_tenantId : string;
  client_tenantName : string
}.

Inductive Category : Type := Success | Warning | Failure | Cancelled.

(** Everything a run does to the outside, in order. *)
Inductive Call : Type :=
| Confirm (prompt : string)
| StartAccountReset (sourceId : string)
| StartEntitlementReset (sourceId : string)
| StartEntitlementAggregation (sourceId : string)
| StartAccountAggregation (sourceId : string) (disableOptimization : bool)
| GetTaskStatus (taskId : string)
| Delay
| ShowMessage (category : Category) (template : string) (label : string).

Definition is_StartEntitlementReset (c : Call) : bool :=
  match c with StartEntitlementReset _ => true | _ => false end.

Definition is_GetTaskStatus (c : Call) : bool :=
  match c with GetTaskStatus _ => true | _ => false end.

Definition count (p : Call -> bool) (log : list Call) : nat :=
  length (filter (fun c => p c = true) log).

(** How a computation ends: with a value, with an exception, or still
    polling when the fuel of the model is spent. *)
Inductive outcome (A : Type) : Type :=
| Done (a : A)
| Thrown (e : string)
| OutOfFuel.
Arguments Done {A} a.
Arguments Thrown {A} e.
Arguments OutOfFuel {A}.

(** An asynchronous computation: how it ends and the calls it made. *)
Definition M (A : Type) : Type := outcome A * list Call.

Definition ret {A : Type} (a : A) : M A := (Done a, []).

Definition bind {A B : Type} (m : M A) (f : A -> M B) : M B :=
  match m with
  | (Done a, l1) => let (o, l2) := f a in (o, l1 ++ l2)
  | (Thrown e, l1) => (Thrown e, l1)
  | (OutOfFuel, l1) => (OutOfFuel, l1)
  end.

Arguments bind : simpl never.

Definition call (c : Call) : M unit := (Done tt, [c]).

Definition throw {A : Type} (e : string) : M A := (Thrown e, []).

Definition await {A : Type} (c : Call) (r : result A) : M A :=
  match r with
  | Ok a => (Done a, [c])
  | Throw e => (Thrown e, [c])
  end.

Notation "'let!' x ':=' m 'in' k" := (bind m (fun x => k))
  (at level 10, x name, m at level 100, k at level 200).
Notation "'do!' m 'in' k" := (bind m (fun _ => k))
  (at level 10, m at level 100, k at level 200).

(** The outside world of one run: the user's answers, the backend's
    answers, and for each progress scope (named by its title) whether its
    cancellation token is raised at the [n]-th check. *)
Record World : Type := mkWorld {
  answer : string -> bool;
  startAccountReset : ISCClient -> string -> result Job;
  startEntitlementReset : ISCClient -> string -> result Job;
  startEntitlementAggregation : ISCClient -> string -> result Job;
  startAccountAggregation : ISCClient -> string -> bool -> result LoadAccountsTask;
  getTaskStatus : ISCClient -> string -> nat -> result TaskStatusBeta;
  isCancellationRequested : string -> nat -> bool
}.

Section Orchestrator.

(** [String.prototype.toUpperCase] and the value of
    [TaskStatusBetaCompletionStatusEnum.Success] and [.Warning], which
    belong to the platform and to the API client library. *)
Variable toUpperCase : string -> string.
Variable Enum_Success : string.
Variable Enum_Warning : string.

Variable w : World.

(** [confirm] of [utils/vsCodeHelpers], which the sources at hand do not
    define: it asks, and the answer is the world's. *)
Definition confirm (prompt : string) : M bool :=
  do! call (Confirm prompt) in ret (answer w prompt).

Definition terminal (t : TaskStatusBeta) : bool :=
  match completionStatus t with Some _ => true | None => false end.

Definition status_is (enum : string) (t : TaskStatusBeta) : bool :=
  match completionStatus t with
  | Some st => String.eqb (toUpperCase st) (toUpperCase enum)
  | None => false
  end.

(** Modelled from the spec: the category of a poll result (4.3, 4.4);
    the classifying code, [formatTask] of [commands/source/sourceUtils],
    is not part of the sources at hand.  No task means the poll was
    cancelled; a task is Success or Warning by its completion status and
    Failure otherwise. *)
Definition category_of (t : option TaskStatusBeta) : Category :=
  match t with
  | None => Cancelled
  | Some t =>
      if status_is Enum_Success t then Success
      else if status_is Enum_Warning t then Warning
      else Failure
  end.

(** Modelled from the spec: JobPoller.poll (4.3, 5, 8); [waifForJob] of
    [commands/source/sourceUtils] is not part of the sources at hand.
    The loop keeps every rule the spec gives for it: "fetch job status by
    id; if status is terminal, return it immediately with the fetched
    Job"; "if the cancellation signal has been raised, stop polling and
    return Cancelled without waiting for a terminal remote state";
    "otherwise suspend for a fixed inter-poll interval and repeat" (4.3);
    the signal is "checked once per loop iteration" (5); a signal "raised
    before the first status fetch" gives "Cancelled with zero status
    fetches", and a status source answering Success to the first query
    gives Success "after exactly one status fetch" (8).  The last two fix
    where in an iteration the signal is looked at: before the fetch.
    [n] counts the iterations done so far and [token n] is the signal as
    iteration [n] sees it; the result is the terminal task, or [None] on
    cancellation, as the orchestrator hands it to its caller.  The
    progress notification of each iteration does not affect control flow
    and is not logged. *)
Fixpoint waifForJob_from (fuel : nat) (client : ISCClient) (taskId : string)
         (token : nat -> bool) (n : nat) : M (option TaskStatusBeta) :=
  match fuel with
  | O => (OutOfFuel, [])
  | S fuel' =>
      if token n then ret None
      else
        let! t := await (GetTaskStatus taskId) (getTaskStatus w client taskId n) in
        if terminal t then ret (Some t)
        else do! call Delay in waifForJob_from fuel' client taskId token (S n)
  end.

Definition waifForJob (fuel : nat) (client : ISCClient) (taskId : string)
           (token : nat -> bool) : M (option TaskStatusBeta) :=
  waifForJob_from fuel client taskId token 0.

(** Modelled from the spec: OutcomeFormatter (4.4) as the orchestrator
    uses it; [formatTask] is not part of the sources at hand.  One
    message of the category's wording is shown, none on cancellation;
    the substitution of the placeholders is left symbolic. *)
Definition formatTask (t : option TaskStatusBeta) (label : string)
           (successMessage warningMessage errorMessage : string) : M unit :=
  match category_of t with
  | Success => call (ShowMessage Success successMessage label)
  | Warning => call (ShowMessage Warning warningMessage label)
  | Failure => call (ShowMessage Failure errorMessage label)
  | Cancelled => ret tt
  end.

(** [vscode.window.withProgress(options, callback)]: runs the callback
    with the scope's cancellation token and returns its result. *)
Definition withProgress {A : Type} (title : string)
           (callback : (nat -> bool) -> M A) : M A :=
  callback (isCancellationRequested w title).

Definition clientOf (item : SourceTreeItem) : ISCClient :=
  mkISCClient (tenantId item) (tenantName item).

(** *** TreeManager *)

Definition resetEntitlements (fuel : nat) (item : SourceTreeItem)
           (doConfirm : bool) : M (option TaskStatusBeta) :=
  let! declined :=
    (if doConfirm
     then let! ok := confirm ("Are you sure you want to reset entitlements for "
                              +:+ source_label item +:+ "?") in
          ret (negb ok)
     else ret false) in
  if (declined : bool) then ret None
  else
    let client := clientOf item in
    do! withProgress ("Resetting entitlements from " +:+ source_label item)
          (fun token =>
             let! job := await (StartEntitlementReset (source_id item))
                               (startEntitlementReset w client (source_id item)) in
             let! task := waifForJob fuel client (job_id job) token in
             do! formatTask task (source_label item)
                   "Entitlements for {0} successfully resetted"
                   "Warning during entitlement reset of {0}: {1}"
                   "Reset of entitlements for {0} failed: {1}: {2}" in
             ret (@None TaskStatusBeta)) in
    ret None.

Definition resetAccounts (fuel : nat) (item : SourceTreeItem)
           (doConfirm : bool) : M (option TaskStatusBeta) :=
  let! declined :=
    (if doConfirm
     then let! ok := confirm ("Are you sure you want to reset accounts for "
                              +:+ source_label item +:+ "?") in
          ret (negb ok)
     else ret false) in
  if (declined : bool) then ret None
  else
    let client := clientOf item in
    withProgress ("Resetting accounts from " +:+ source_label item)
      (fun token =>
         let! job := await (StartAccountReset (source_id item))
                           (startAccountReset w client (source_id item)) in
         let! task := waifForJob fuel client (job_id job) token in
         do! formatTask task (source_label item)
               "Accounts for {0} successfully resetted"
               "Warning during account reset of {0}: {1}"
               "Reset of accounts for {0} failed: {1}: {2}" in
         ret task).

Definition aggregateEntitlements (fuel : nat) (item : SourceTreeItem) : M unit :=
  let client := clientOf item in
  withProgress ("Aggregation entitlements from " +:+ source_label item)
    (fun token =>
       let! job := await (StartEntitlementAggregation (source_id item))
                         (startEntitlementAggregation w client (source_id item)) in
       let! task := waifForJob fuel client (job_id job) token in
       formatTask task (source_label item)
         "Source entitlements {0} successfully aggregated"
         "Warning during aggregation of {0}: {1}"
         "Aggregation of entitlements for {0} failed: {1}: {2}").

Definition aggregateSource (fuel : nat) (item : SourceTreeItem)
           (disableOptimization : bool) : M unit :=
  let client := clientOf item in
  withProgress ("Aggregation accounts from " +:+ source_label item)
    (fun token =>
       let! job := await (StartAccountAggregation (source_id item) disableOptimization)
                         (startAccountAggregation w client (source_id item)
                                                  disableOptimization) in
       let! task := waifForJob fuel client (job_id (task job)) token in
       formatTask task (source_label item)
         "Source {0} successfully aggregated"
         "Warning during aggregation of {0}: {1}"
         "Aggregation of {0} failed: {1}: {2}").

(** The gate of [resetSource]:
    [task?.completionStatus.toUpperCase() === Success.toUpperCase()].
    No task makes the left side [undefined]; a task whose
    [completionStatus] is [null] makes [toUpperCase] throw. *)
Definition resetSource (fuel : nat) (item : SourceTreeItem) : M unit :=
  let! ok := confirm ("Are you sure you want to reset the source "
                      +:+ source_label item +:+ "?") in
  if negb ok then ret tt
  else
    let! task := resetAccounts fuel item false in
    match task with
    | None => ret tt
    | Some t =>
        match completionStatus t with
        | None => throw "TypeError"
        | Some st =>
            if String.eqb (toUpperCase st) (toUpperCase Enum_Success)
            then do! resetEntitlements fuel item false in ret tt
            else ret tt
        end
    end.

End Orchestrator.

(** ** The single-flight cache *)

(** Modelled from the spec: SingleFlightCache (3, 4.1, 5); [CacheService]
    of [services/cache/CacheService] is not part of the sources at hand,
    only its subclass [AccessProfileNameToIdCacheService] is.

    Scheduling is single-threaded and cooperative, so a run of the cache
    is a sequence of events: a caller entering [get(key)], and the
    outstanding resolution of a key settling.  [resolve key n] is how the
    [n]-th invocation of the resolver for [key] ends.  The cache records
    the keys the resolver was invoked with and what each caller received. *)
Module CacheService.
Section CacheService.

Context {T : Type}.
Variable resolve : string -> nat -> result T.

(** Modelled from the spec: CacheEntry (3).  "Pending" with the callers
    attached to the outstanding resolution and the number of the resolver's
    attempt, or "Resolved"; a failed entry is removed, so "Failed" is never
    stored. *)
Inductive CacheEntry : Type :=
| Pending (attempt : nat) (attached : list nat)
| Resolved (value : T).

Record Cache : Type := mkCache {
  entries : gmap string CacheEntry;
  invoked : list string;
  delivered : list (nat * string * result T)
}.

Definition empty : Cache := mkCache ∅ [] [].

(** How often the resolver has been invoked with [key]. *)
Definition invocations (key : string) (c : Cache) : nat :=
  length (filter (fun k => k = key) (invoked c)).

(** What the callers of [get(key)] have received so far, in order. *)
Definition received (key : string) (c : Cache) : list (nat * string * result T) :=
  filter (fun d => d.1.2 = key) (delivered c).

(** Modelled from the spec: [get] of the absent [CacheService] (4.1), up to
    its suspension.  "If key has a Resolved entry, return its value
    immediately.  If key has a Pending entry, the new caller attaches to
    the same outstanding resolution.  If key has no entry, create a
    Pending entry, invoke resolve(key)". *)
Definition get (caller : nat) (key : string) (c : Cache) : Cache :=
  match entries c !! key with
  | Some (Resolved v) =>
      mkCache (entries c) (invoked c) (delivered c ++ [(caller, key, Ok v)])
  | Some (Pending n cs) =>
      mkCache (<[key := Pending n (cs ++ [caller])]> (entries c))
              (invoked c) (delivered c)
  | None =>
      mkCache (<[key := Pending (invocations key c) [caller]]> (entries c))
              (invoked c ++ [key]) (delivered c)
  end.

(** Modelled from the spec: [get] of the absent [CacheService] (4.1), from
    the moment the outstanding resolution of [key] settles.  "On success
    transition to Resolved and return the value to every attached caller;
    on failure remove the entry and propagate the error to every attached
    caller". *)
Definition settle (key : string) (c : Cache) : Cache :=
  match entries c !! key with
  | Some (Pending n cs) =>
      match resolve key n with
      | Ok v =>
          mkCache (<[key := Resolved v]> (entries c)) (invoked c)
                  (delivered c ++ map (fun caller => (caller, key, Ok v)) cs)
      | Throw e =>
          mkCache (delete key (entries c)) (invoked c)
                  (delivered c ++ map (fun caller => (caller, key, Throw e)) cs)
      end
  | _ => c
  end.

Inductive Event : Type :=
| Get (caller : nat) (key : string)
| Settle (key : string).

Definition key_of (e : Event) : string :=
  match e with Get _ k => k | Settle k => k end.

Definition step (c : Cache) (e : Event) : Cache :=
  match e with
  | Get caller key => get caller key c
  | Settle key => settle key c
  end.

Definition run (events : list Event) (c : Cache) : Cache :=
  fold_left step events c.

(** The callers that enter [get(key)] along a run, in order. *)
Definition callers (key : string) (events : list Event) : list nat :=
  omap (fun e => match e with
                 | Get caller k => if decide (k = key) then Some caller else None
                 | Settle _ => None
                 end) events.

(** Along [events] the outstanding resolution of [key] does not settle:
    the calls they make on [key] are concurrent. *)
Definition unsettled (key : string) (events : list Event) : Prop :=
  Forall (fun e => e <> Settle key) events.

End CacheService.
End CacheService.

Record AccessProfile : Type := mkAccessProfile {
  ap_name : string;
  ap_id : string
}.

Module AccessProfileNameToIdCacheService.

(** The resolver the constructor hands to [CacheService]:
    [async (key) => (await client.getAccessProfileByName(key)).id];
    [getAccessProfileByName key n] is the client's answer to the [n]-th
    lookup of [key]. *)
Definition fetchFunction
           (getAccessProfileByName : string -> nat -> result AccessProfile)
  : string -> nat -> result string :=
  fun key n =>
    match getAccessProfileByName key n with
    | Ok ap => Ok (ap_id ap)
    | Throw e => Throw e
    end.

Definition get := CacheService.get (T := string).
Definition settle getAccessProfileByName :=
  CacheService.settle (fetchFunction getAccessProfileByName).
Definition run getAccessProfileByName :=
  CacheService.run (fetchFunction getAccessProfileByName).

End AccessProfileNameToIdCacheService.

(** ** Concrete surroundings for running the operations *)

(** [toUpperCase] on ASCII letters; other characters are kept. *)
Definition upper_ascii (a : ascii) : ascii :=
  let n := nat_of_ascii a in
  if ((97 <=? n) && (n <=? 122))%nat then ascii_of_nat (n - 32) else a.

Fixpoint toUpperCase_ascii (s : string) : string :=
  match s with
  | EmptyString => EmptyString
  | String a s' => String (upper_ascii a) (toUpperCase_ascii s')
  end.

(** A world in which every job start succeeds, the [n]-th status fetch of
    any task shows completion status [statuses n], every cancellation
    token is raised from check [raisedFrom] on, and the user answers
    [ans] to every prompt. *)
Definition world (statuses : nat -> option string) (raisedFrom : nat)
           (ans : bool) : World :=
  mkWorld (fun _ => ans)
          (fun _ _ => Ok (mkJob "reset-accounts"))
          (fun _ _ => Ok (mkJob "reset-entitlements"))
          (fun _ _ => Ok (mkJob "aggregate-entitlements"))
          (fun _ _ _ => Ok (mkLoadAccountsTask (mkJob "aggregate-accounts")))
          (fun _ taskId n => Ok (mkTask taskId (statuses n) []))
          (fun _ n => (raisedFrom <=? n)%nat).

Definition HR : SourceTreeItem := mkSourceTreeItem "2c91" "HR" "t1" "acme".

(** ** Using a pageable folder through its public methods *)

(** One use of a pageable folder node: [loadMore] and [getChildren] with
    the listing endpoint's behaviour at that moment, or [reset]. *)
Inductive PageableOp : Type :=
| OpLoadMore (search : Search)
| OpGetChildren (search : Search)
| OpReset.

Definition applyOp (mkItem : string -> string -> BaseTreeItem) (emptyLabel : string)
           (s : PageableNode) (op : PageableOp) : PageableNode :=
  match op with
  | OpLoadMore search => snd (Pageable.loadMore mkItem emptyLabel search s)
  | OpGetChildren search => snd (Pageable.getChildren mkItem emptyLabel search s)
  | OpReset => Pageable.reset s
  end.

Definition applyOps (mkItem : string -> string -> BaseTreeItem) (emptyLabel : string)
           (ops : list PageableOp) (s : PageableNode) : PageableNode :=
  fold_left (applyOp mkItem emptyLabel) ops s.

(** Every child but the last is a collection item: a synthetic node, if
    there is one, trails the list. *)
Definition synthetic_only_last (c : list BaseTreeItem) : bool :=
  forallb is_resource (removelast c).

(** ** SourceTreeItem *)

(** [String.prototype.replace] with a string pattern: the first occurrence
    of [pattern] is replaced.  (The replacements used below hold no [$].) *)
Fixpoint replace (pattern replacement s : string) : string :=
  if String.prefix pattern s
  then replacement +:+ String.substring (String.length pattern)
                         (String.length s - String.length pattern) s
  else match s with
       | EmptyString => EmptyString
       | String a s' => String a (replace pattern replacement s')
       end.

(** Whether the character [c] occurs in [s]. *)
Fixpoint occurs (c : ascii) (s : string) : bool :=
  match s with
  | EmptyString => false
  | String a s' => Ascii.eqb a c || occurs c s'
  end.

(** The constructor's [this.contextValue = type.replace(" ", "") + "source"]. *)
Definition SourceTreeItem_contextValue (type : string) : string :=
  replace " " "" type +:+ "source".

(** ** TreeManager.removeTenant *)

Record TenantTreeItem : Type := mkTenantTreeItem {
  tenant_tenantId : string;
  tenant_tenantName : string
}.

(** What [removeTenant] may be handed at run time: nothing, a tenant node,
    or a node of another class. *)
Inductive TreeArgument : Type :=
| Undefined
| IsTenant (item : TenantTreeItem)
| OtherItem.

Record AuthenticationSession : Type := mkSession { session_id : string }.

Inductive TenantCall : Type :=
| ShowWarningMessage (text : string)
| GetSession (tenantId : string)
| RemoveSession (sessionId : string)
| RemoveTenant (tenantId : string)
| ExecuteRefreshForced
| ShowInformationMessage (text : string).

(** The surroundings of [removeTenant]: the button the user presses in the
    modal dialog (if any), the session the editor knows for a tenant (the
    lookup may throw; the [try] swallows that), and how the tenant
    service's removal ends.  [removeSession] is not awaited and sits inside
    the [try], so however it ends the run goes on; it is a plain call. *)
Record TenantWorld : Type := mkTenantWorld {
  pressed : string -> option string;
  getSession : string -> result (option AuthenticationSession);
  removeTenantOf : string -> result unit
}.

Definition removeTenant (tw : TenantWorld) (item : TreeArgument)
  : outcome unit * list TenantCall :=
  match item with
  | Undefined | OtherItem => (Thrown "removeTenant: invalid item", [])
  | IsTenant item =>
      let tenantName := if String.eqb (tenant_tenantName item) ""
                        then "" else tenant_tenantName item in
      let prompt := "Are you sure you want to delete tenant " +:+ tenantName +:+ "?" in
      match pressed tw prompt with
      | Some response =>
          if negb (String.eqb response "Yes")
          then (Done tt, [ShowWarningMessage prompt])
          else
            let lookup :=
              match getSession tw (tenant_tenantId item) with
              | Ok (Some session) =>
                  [GetSession (tenant_tenantId item); RemoveSession (session_id session)]
              | Ok None => [GetSession (tenant_tenantId item)]
              | Throw _ => [GetSession (tenant_tenantId item)]
              end in
            match removeTenantOf tw (tenant_tenantId item) with
            | Ok _ =>
                (Done tt,
                 [ShowWarningMessage prompt] ++ lookup
                 ++ [RemoveTenant (tenant_tenantId item); ExecuteRefreshForced;
                     ShowInformationMessage
                       ("Successfully deleted tenant " +:+ tenantName)])
            | Throw e =>
                (Thrown e,
                 [ShowWarningMessage prompt] ++ lookup
                 ++ [RemoveTenant (tenant_tenantId item)])
            end
      | None => (Done tt, [ShowWarningMessage prompt])
      end
  end.

(** What a job body logs after its start call: the poll, then the report. *)
Definition after_start (poll : M (option TaskStatusBeta))
           (report : option TaskStatusBeta -> M unit) : list Call :=
  snd poll ++ match fst poll with Done t => snd (report t) | _ => [] end.

(** The gate of [resetSource] on how the account phase ended. *)
Definition gate_open (toUpperCase : string -> string) (Enum_Success : string)
           (phase : outcome (option TaskStatusBeta)) : bool :=
  match phase with
  | Done (Some t) => status_is toUpperCase Enum_Success t
  | _ => false
  end.

Definition is_Confirm (c : Call) : bool :=
  match c with Confirm _ => true | _ => false end.

(** ** utils/vsCodeHelpers *)

(** [chooseTenant]: [sort] is [Array.prototype.sort] on the tenant names,
    [pick] the entry the user takes from the quick pick (if any).  The
    result comes with the option lists shown to the user. *)
Definition chooseTenant (sort : list string -> list string)
           (pick : list string -> option string) (getTenants : list string)
  : option string * list (list string) :=
  let tenants := sort getTenants in
  if (length tenants <? 1)%nat then (None, [])
  else if (length tenants =? 1)%nat then (tenants !! 0, [])
  else (pick tenants, [tenants]).

(** [confirmFileOverwrite] over a file system given as the set of existing
    paths.  [answer] is what the user takes from the quick pick, [unlink]
    how [fs.unlinkSync] ends on the path ([Some e]: it throws [e]). *)
Definition confirmFileOverwrite (answer : option string) (unlink : option string)
           (exportFile : string) (fs : gset string)
  : result bool * gset string :=
  if decide (exportFile ∈ fs)
  then match answer with
       | None => (Ok false, fs)
       | Some a =>
           if String.eqb a "No" then (Ok false, fs)
           else match unlink with
                | Some e => (Throw e, fs)
                | None => (Ok true, fs ∖ {[exportFile]})
                end
       end
  else (Ok true, fs).

(** ** Ranges in which the model is the program *)

(** [Number.MAX_SAFE_INTEGER] and [Number.isSafeInteger] on an integer.
    The fields [currentOffset] and [limit] are numbers of the platform, that
    is doubles; the sum of two safe integers whose sum is a safe integer is
    exact, and there the addition on [Z] in [Pageable.accept] is the
    program's [+=]. *)
Definition MAX_SAFE_INTEGER : Z := (2 ^ 53 - 1)%Z.

Definition isSafeInteger (z : Z) : bool :=
  ((- MAX_SAFE_INTEGER <=? z) && (z <=? MAX_SAFE_INTEGER))%Z.

(** Two [loadMore] calls in flight at once on one node: the second is
    entered while the first is suspended at its [await], so both pop and
    send their request before either response is taken in; the responses
    then arrive in the order of the calls.  Nothing in the class keeps a
    caller from doing this; [applyOps] above is the use in which every
    call has settled before the next one starts. *)
Definition loadMore_overlapping (mkItem : string -> string -> BaseTreeItem)
           (emptyLabel : string) (first second : Search) (s : PageableNode)
  : PageableNode :=
  let s1 := Pageable.discardTrailing s in
  let r1 := first (Pageable.request s1) in
  let s2 := Pageable.discardTrailing s1 in
  let r2 := second (Pageable.request s2) in
  let s3 := match r1 with
            | Ok response => Pageable.accept mkItem emptyLabel response s2
            | Throw _ => s2
            end in
  match r2 with
  | Ok response => Pageable.accept mkItem emptyLabel response s3
  | Throw _ => s3
  end.

(** The first [n] iterations of a poll see the cancellation signal down
    and a task that has not completed. *)
Definition still_running (w : World) (client : ISCClient) (taskId : string)
           (token : nat -> bool) (n : nat) : Prop :=
  forall i, i < n ->
    token i = false
    /\ exists t, getTaskStatus w client taskId i = Ok t /\ terminal t = false.

(** * Properties *)

(** ** Pageable folder nodes *)

Section PageableFacts.

Variable mkItem : string -> string -> BaseTreeItem.
Variable emptyLabel : string.

Abbreviation loadMore := (Pageable.loadMore mkItem emptyLabel).
Abbreviation loadMores := (Pageable.loadMores mkItem emptyLabel).
Abbreviation requests := (Pageable.requests mkItem emptyLabel).
Abbreviation accept := (Pageable.accept mkItem emptyLabel).

Lemma discardTrailing_fields s :
  currentOffset (Pageable.discardTrailing s) = currentOffset s
  /\ limit (Pageable.discardTrailing s) = limit s
  /\ filters (Pageable.discardTrailing s) = filters s
  /\ _total (Pageable.discardTrailing s) = _total s.
Proof.
  unfold Pageable.discardTrailing.
  destruct (0 <? length (children s))%nat; auto.
Qed.

Lemma discardTrailing_children s :
  children (Pageable.discardTrailing s) = removelast (children s).
Proof.
  unfold Pageable.discardTrailing.
  destruct s as [o l f [|x c] t]; reflexivity.
Qed.

Lemma accept_total response s :
  _total (accept response s) = total_after response s.
Proof.
  unfold Pageable.accept, total_after.
  destruct (strict_eq_zero (_total s)) eqn:E0; simpl.
  - destruct (strict_eq_zero (totalCount response)); simpl; [reflexivity|].
    destruct (Pageable.hasMore _); reflexivity.
  - rewrite E0. destruct (Pageable.hasMore _); reflexivity.
Qed.

Lemma accept_currentOffset response s :
  currentOffset (accept response s) =
  if gt_length (total_after response s)
               (length (children s) + length (data response))
  then (currentOffset s + limit s)%Z
  else currentOffset s.
Proof.
  unfold Pageable.accept, total_after, Pageable.hasMore.
  destruct (strict_eq_zero (_total s)) eqn:E0; simpl.
  - destruct (totalCount response) as [z|] eqn:Et; simpl.
    + destruct (z =? 0)%Z eqn:Ez; simpl.
      * apply Z.eqb_eq in Ez. subst z.
        destruct (_ <? 0)%Z eqn:Hlt; [apply Z.ltb_lt in Hlt; lia | reflexivity].
      * rewrite length_app, length_map.
        destruct (_ <? z)%Z; reflexivity.
    + reflexivity.
  - rewrite E0. simpl. rewrite length_app, length_map.
    destruct (gt_length _ _); reflexivity.
Qed.

Lemma loadMore_total_stable search s :
  strict_eq_zero (_total s) = false ->
  _total (snd (loadMore search s)) = _total s.
Proof.
  intros H. unfold Pageable.loadMore.
  destruct (discardTrailing_fields s) as (_ & _ & _ & Ht).
  destruct (search _); simpl; [|exact Ht].
  rewrite accept_total. unfold total_after. rewrite Ht, H. reflexivity.
Qed.

Lemma request_discardTrailing s :
  Pageable.request (Pageable.discardTrailing s) = Pageable.request s.
Proof.
  unfold Pageable.request.
  destruct (discardTrailing_fields s) as (-> & -> & -> & ->). reflexivity.
Qed.

Lemma loadMores_total_stable searches : forall s,
  strict_eq_zero (_total s) = false ->
  _total (loadMores searches s) = _total s.
Proof.
  induction searches as [|f fs IH]; intros s H; simpl; [reflexivity|].
  rewrite IH; rewrite loadMore_total_stable; auto.
Qed.

Lemma requests_no_count searches : forall s,
  strict_eq_zero (_total s) = false ->
  Forall (fun r => req_count r = false) (requests searches s).
Proof.
  induction searches as [|f fs IH]; intros s H; simpl; constructor.
  - rewrite request_discardTrailing. exact H.
  - apply IH. rewrite loadMore_total_stable; auto.
Qed.

End PageableFacts.

(** C3. With a remote collection of ten items and a page size of four,
    one, two and three [loadMore] calls leave four, eight and ten
    collection items accumulated (the trailing marker not counted) and
    [hasMore] true, true and false; for access profiles and for roles. *)
Theorem loadMore_ten_by_four (remote : list Resource) :
  length remote = 10 ->
  let after n :=
    Pageable.loadMores AccessProfileTreeItem "No access profile found"
      (replicate n (fetchPage remote)) (set_limit 4 AccessProfilesTreeItem.new) in
  let after' n :=
    Pageable.loadMores RoleTreeItem "No role found"
      (replicate n (fetchPage remote)) (set_limit 4 RolesTreeItem.new) in
  (length (items (after 1)) = 4 /\ AccessProfilesTreeItem.hasMore (after 1) = true)
  /\ (length (items (after 2)) = 8 /\ AccessProfilesTreeItem.hasMore (after 2) = true)
  /\ (length (items (after 3)) = 10 /\ AccessProfilesTreeItem.hasMore (after 3) = false)
  /\ (length (items (after' 1)) = 4 /\ RolesTreeItem.hasMore (after' 1) = true)
  /\ (length (items (after' 2)) = 8 /\ RolesTreeItem.hasMore (after' 2) = true)
  /\ (length (items (after' 3)) = 10 /\ RolesTreeItem.hasMore (after' 3) = false).
Proof.
  intros Hlen.
  do 10 (destruct remote as [|? remote]; [discriminate Hlen|]).
  destruct remote; [|discriminate Hlen].
  repeat split; reflexivity.
Qed.

Lemma loadMore_ten_by_four_witness :
  length ten = 10
  /\ length (items (Pageable.loadMores AccessProfileTreeItem "No access profile found"
                      (replicate 3 (fetchPage ten))
                      (set_limit 4 AccessProfilesTreeItem.new))) = 10.
Proof.
  split; [reflexivity|].
  exact (proj1 (proj1 (proj2 (proj2 (loadMore_ten_by_four ten eq_refl))))).
Defined.

(** C4, as the code has it.  While offset, limit and their sum are safe
    integers (so that the program's [+=] on numbers is the exact sum): after
    a successful fetch the offset has grown by exactly [limit] when the
    total the call works with exceeds the number of children accumulated
    once the page is appended (that is, when [hasMore] holds and a
    continuation marker is pushed); otherwise the offset is what it was,
    however many items the page carried. *)
Theorem loadMore_offset (mkItem : string -> string -> BaseTreeItem)
        (emptyLabel : string) (search : Search) (s : PageableNode)
        (response : Response) :
  isSafeInteger (currentOffset s) = true ->
  isSafeInteger (limit s) = true ->
  isSafeInteger (currentOffset s + limit s) = true ->
  search (Pageable.request (Pageable.discardTrailing s)) = Ok response ->
  currentOffset (snd (Pageable.loadMore mkItem emptyLabel search s)) =
  (if gt_length (total_after response s)
                (length (removelast (children s)) + length (data response))
   then (currentOffset s + limit s)%Z
   else currentOffset s)
  /\ isSafeInteger (currentOffset (snd (Pageable.loadMore mkItem emptyLabel search s)))
     = true.
Proof.
  intros Ho_safe _ Hsum_safe Hfetch.
  assert (Heq : currentOffset (snd (Pageable.loadMore mkItem emptyLabel search s)) =
                if gt_length (total_after response s)
                     (length (removelast (children s)) + length (data response))
                then (currentOffset s + limit s)%Z
                else currentOffset s).
  { unfold Pageable.loadMore. rewrite Hfetch. simpl.
    rewrite accept_currentOffset, discardTrailing_children.
    destruct (discardTrailing_fields s) as (Ho & Hl & _ & Ht).
    unfold total_after. rewrite Ht, Ho, Hl. reflexivity. }
  split; [exact Heq|]. rewrite Heq.
  destruct (gt_length _ _); assumption.
Qed.

Lemma loadMore_offset_witness :
  let s0 := set_limit 4 AccessProfilesTreeItem.new in
  let s2 := Pageable.loadMores AccessProfileTreeItem "No access profile found"
              (replicate 2 (fetchPage ten)) s0 in
  (currentOffset s0 = 0%Z /\ limit s0 = 4%Z
   /\ currentOffset (snd (AccessProfilesTreeItem.loadMore (fetchPage ten) s0)) = 4%Z)
  /\ (currentOffset s2 = 8%Z
      /\ currentOffset (snd (AccessProfilesTreeItem.loadMore (fetchPage ten) s2)) = 8%Z).
Proof.
  intros s0 s2. split.
  - split; [reflexivity|]. split; [reflexivity|].
    exact (proj1 (loadMore_offset AccessProfileTreeItem "No access profile found"
                    (fetchPage ten) s0 (mkResponse (take 4 ten) (Num 10))
                    eq_refl eq_refl eq_refl eq_refl)).
  - split; [reflexivity|].
    exact (proj1 (loadMore_offset AccessProfileTreeItem "No access profile found"
                    (fetchPage ten) s2 (mkResponse (drop 8 ten) NaN)
                    eq_refl eq_refl eq_refl eq_refl)).
Defined.

(** C4, as stated, fails on the last page: with ten remote items and a page
    size of four, the third fetch succeeds and returns two items, and the
    offset stays at 8 instead of moving to 12. *)
Lemma loadMore_offset_kept_on_last_page :
  let s2 := Pageable.loadMores AccessProfileTreeItem "No access profile found"
              (replicate 2 (fetchPage ten)) (set_limit 4 AccessProfilesTreeItem.new) in
  fetchPage ten (Pageable.request (Pageable.discardTrailing s2))
  = Ok (mkResponse (drop 8 ten) NaN)
  /\ length (drop 8 ten) = 2
  /\ fst (AccessProfilesTreeItem.loadMore (fetchPage ten) s2) = Ok tt
  /\ currentOffset s2 = 8%Z
  /\ limit s2 = 4%Z
  /\ currentOffset (snd (AccessProfilesTreeItem.loadMore (fetchPage ten) s2)) = 8%Z
  /\ currentOffset (snd (AccessProfilesTreeItem.loadMore (fetchPage ten) s2))
     <> (currentOffset s2 + limit s2)%Z.
Proof. repeat split; try reflexivity. discriminate. Qed.

(** C5 at the input where the code departs from it: once the last page is
    in, no marker trails the children, and one more [loadMore] pops the
    tenth collection item before it fetches; the page at the unchanged
    offset 8 is then appended again. *)
Lemma loadMore_pops_collection_item :
  let s3 := Pageable.loadMores AccessProfileTreeItem "No access profile found"
              (replicate 3 (fetchPage ten)) (set_limit 4 AccessProfilesTreeItem.new) in
  let item r := AccessProfileTreeItem (name r) (id r) in
  children s3 = map item ten
  /\ last (children s3) = Some (AccessProfileTreeItem "ap9" "id9")
  /\ children (Pageable.discardTrailing s3) = map item (take 9 ten)
  /\ children (snd (AccessProfilesTreeItem.loadMore (fetchPage ten) s3))
     = map item (take 9 ten ++ drop 8 ten).
Proof. repeat split; reflexivity. Qed.

(** C6. When the first fetch reports a total of zero, one [loadMore] leaves
    exactly one empty-state message node as children and [hasMore] false. *)
Theorem loadMore_empty_collection (mkItem : string -> string -> BaseTreeItem)
        (emptyLabel : string) (search : Search) (s : PageableNode)
        (response : Response) :
  _total s = Num 0 ->
  search (Pageable.request (Pageable.discardTrailing s)) = Ok response ->
  totalCount response = Num 0 ->
  fst (Pageable.loadMore mkItem emptyLabel search s) = Ok tt
  /\ children (snd (Pageable.loadMore mkItem emptyLabel search s))
     = [MessageNode emptyLabel]
  /\ Pageable.hasMore (snd (Pageable.loadMore mkItem emptyLabel search s)) = false.
Proof.
  intros Ht Hfetch Hzero. unfold Pageable.loadMore. rewrite Hfetch. simpl.
  destruct (discardTrailing_fields s) as (_ & _ & _ & Ht').
  unfold Pageable.accept. rewrite Ht', Ht. simpl. rewrite Hzero. simpl.
  unfold Pageable.hasMore. simpl. auto.
Qed.

Lemma loadMore_empty_collection_witness :
  children (snd (AccessProfilesTreeItem.loadMore (fetchPage []) AccessProfilesTreeItem.new))
  = [MessageNode "No access profile found"]
  /\ children (snd (RolesTreeItem.loadMore (fetchPage []) RolesTreeItem.new))
     = [MessageNode "No role found"].
Proof.
  split.
  - exact (proj1 (proj2 (loadMore_empty_collection AccessProfileTreeItem
             "No access profile found" (fetchPage []) AccessProfilesTreeItem.new
             (mkResponse [] (Num 0)) eq_refl eq_refl eq_refl))).
  - exact (proj1 (proj2 (loadMore_empty_collection RoleTreeItem
             "No role found" (fetchPage []) RolesTreeItem.new
             (mkResponse [] (Num 0)) eq_refl eq_refl eq_refl))).
Defined.

(** C10. [reset] puts the offset back to 0 and empties the children but
    keeps the stored total.  So after a reset of a node whose stored total
    is not zero, every [loadMore] asks for its page without the total, the
    stored total stays the one from before the reset whatever the
    responses say, and [hasMore] is computed against it. *)
Theorem reset_keeps_total (mkItem : string -> string -> BaseTreeItem)
        (emptyLabel : string) (s : PageableNode) (searches : list Search) :
  strict_eq_zero (_total s) = false ->
  let r := Pageable.reset s in
  let s' := Pageable.loadMores mkItem emptyLabel searches r in
  currentOffset r = 0%Z
  /\ children r = []
  /\ _total r = _total s
  /\ Forall (fun q => req_count q = false)
            (Pageable.requests mkItem emptyLabel searches r)
  /\ _total s' = _total s
  /\ Pageable.hasMore s' = gt_length (_total s) (length (children s')).
Proof.
  intros H r s'.
  assert (Hr : strict_eq_zero (_total r) = false) by exact H.
  assert (Hs' : _total s' = _total s).
  { unfold s'. rewrite loadMores_total_stable; auto. }
  repeat split; auto.
  - apply requests_no_count. exact Hr.
  - unfold Pageable.hasMore. rewrite Hs'. reflexivity.
Qed.

Lemma reset_keeps_total_witness :
  let s1 := snd (AccessProfilesTreeItem.loadMore (fetchPage ten)
                   (set_limit 4 AccessProfilesTreeItem.new)) in
  strict_eq_zero (_total s1) = false
  /\ _total (Pageable.loadMores AccessProfileTreeItem "No access profile found"
               [fetchPage (take 3 ten)] (Pageable.reset s1)) = Num 10.
Proof.
  split; [reflexivity|].
  exact (proj1 (proj2 (proj2 (proj2 (proj2
           (reset_keeps_total AccessProfileTreeItem "No access profile found"
              (snd (AccessProfilesTreeItem.loadMore (fetchPage ten)
                      (set_limit 4 AccessProfilesTreeItem.new)))
              [fetchPage (take 3 ten)] eq_refl)))))).
Defined.

(** ** Job polling and the administrative operations *)

Lemma count_app (p : Call -> bool) (l1 l2 : list Call) :
  count p (l1 ++ l2) = count p l1 + count p l2.
Proof. unfold count. rewrite filter_app, length_app. reflexivity. Qed.

Lemma fst_bind {A B : Type} (m : M A) (f : A -> M B) :
  fst (bind m f) =
  match fst m with
  | Done a => fst (f a)
  | Thrown e => Thrown e
  | OutOfFuel => OutOfFuel
  end.
Proof.
  unfold bind. destruct m as [[a|e|] l]; simpl; try reflexivity.
  destruct (f a); reflexivity.
Qed.

Lemma snd_bind {A B : Type} (m : M A) (f : A -> M B) :
  snd (bind m f) =
  snd m ++ match fst m with Done a => snd (f a) | _ => [] end.
Proof.
  unfold bind. destruct m as [[a|e|] l]; simpl;
    try (rewrite app_nil_r; reflexivity).
  destruct (f a); reflexivity.
Qed.

Section OrchestratorFacts.

Variable toUpperCase : string -> string.
Variable Enum_Success Enum_Warning : string.
Variable w : World.

Abbreviation waifForJob_from' := (waifForJob_from w).
Abbreviation formatTask' := (formatTask toUpperCase Enum_Success Enum_Warning).
Abbreviation category_of' := (category_of toUpperCase Enum_Success Enum_Warning).
Abbreviation resetAccounts' := (resetAccounts toUpperCase Enum_Success Enum_Warning w).
Abbreviation resetEntitlements' :=
  (resetEntitlements toUpperCase Enum_Success Enum_Warning w).

(** Only status fetches and delays are logged by the poller. *)
Lemma waifForJob_log fuel client taskId token : forall n,
  Forall (fun c => c = GetTaskStatus taskId \/ c = Delay)
         (snd (waifForJob_from' fuel client taskId token n)).
Proof.
  induction fuel as [|fuel IH]; intros n; simpl; [constructor|].
  destruct (token n); [constructor|].
  rewrite snd_bind. apply Forall_app. split.
  - destruct (getTaskStatus w client taskId n); simpl; repeat constructor.
  - destruct (getTaskStatus w client taskId n) as [t|e]; simpl; [|constructor].
    destruct (terminal t); [constructor|].
    rewrite snd_bind. simpl. constructor; [right; reflexivity | apply IH].
Qed.

(** A poll that returns has either seen a terminal task, which it hands
    back, or seen the token raised. *)
Lemma waifForJob_result fuel client taskId token : forall n r,
  fst (waifForJob_from' fuel client taskId token n) = Done r ->
  match r with
  | Some t => terminal t = true
  | None => exists k, token k = true
  end.
Proof.
  induction fuel as [|fuel IH]; intros n r; simpl; [discriminate|].
  destruct (token n) eqn:Ek.
  - simpl. intros [= <-]. eauto.
  - rewrite fst_bind.
    destruct (getTaskStatus w client taskId n) as [t|e]; simpl; [|discriminate].
    destruct (terminal t) eqn:Et.
    + simpl. intros [= <-]. exact Et.
    + rewrite fst_bind. simpl. apply IH.
Qed.

Lemma count_none (p : Call -> bool) (l : list Call) :
  Forall (fun c => p c = false) l -> count p l = 0.
Proof.
  unfold count. induction 1 as [|c l Hc _ IH]; [reflexivity|].
  rewrite filter_cons. destruct (decide (p c = true)); [congruence | exact IH].
Qed.

Lemma waifForJob_no_start fuel client taskId token n :
  count is_StartEntitlementReset
        (snd (waifForJob_from' fuel client taskId token n)) = 0.
Proof.
  apply count_none.
  eapply Forall_impl; [apply waifForJob_log|].
  intros c [-> | ->]; reflexivity.
Qed.

Lemma formatTask_no_start t label m1 m2 m3 :
  count is_StartEntitlementReset (snd (formatTask' t label m1 m2 m3)) = 0.
Proof. unfold formatTask. destruct (category_of _ _ _ _); reflexivity. Qed.

Lemma formatTask_done t label m1 m2 m3 :
  fst (formatTask' t label m1 m2 m3) = Done tt.
Proof. unfold formatTask. destruct (category_of _ _ _ _); reflexivity. Qed.

(** The account reset never starts an entitlement reset. *)
Lemma resetAccounts_no_start fuel item :
  count is_StartEntitlementReset (snd (resetAccounts' fuel item false)) = 0.
Proof.
  unfold resetAccounts, withProgress.
  rewrite snd_bind. simpl.
  rewrite snd_bind, count_app.
  destruct (startAccountReset w (clientOf item) (source_id item)) as [job|e];
    simpl; [|reflexivity].
  rewrite snd_bind, count_app. unfold waifForJob.
  rewrite waifForJob_no_start. simpl.
  destruct (fst (waifForJob_from' _ _ _ _ _)); try reflexivity.
  rewrite snd_bind, count_app, formatTask_no_start, formatTask_done. reflexivity.
Qed.

(** The entitlement reset, entered without confirmation, starts its job
    exactly once, however the job then goes. *)
Lemma resetEntitlements_one_start fuel item :
  count is_StartEntitlementReset (snd (resetEntitlements' fuel item false)) = 1.
Proof.
  unfold resetEntitlements, withProgress.
  rewrite snd_bind. simpl.
  rewrite snd_bind, count_app, snd_bind, count_app.
  destruct (startEntitlementReset w (clientOf item) (source_id item)) as [job|e];
    simpl; [|reflexivity].
  rewrite fst_bind. simpl.
  rewrite snd_bind, count_app. unfold waifForJob.
  rewrite waifForJob_no_start. simpl. rewrite fst_bind.
  destruct (fst (waifForJob_from' _ _ _ _ _)); try reflexivity.
  rewrite snd_bind, count_app, formatTask_no_start, formatTask_done.
  rewrite fst_bind, formatTask_done. reflexivity.
Qed.

End OrchestratorFacts.

Lemma category_of_Success toUpperCase Enum_Success Enum_Warning t :
  category_of toUpperCase Enum_Success Enum_Warning t = Success <->
  exists t' st, t = Some t' /\ completionStatus t' = Some st
                /\ String.eqb (toUpperCase st) (toUpperCase Enum_Success) = true.
Proof.
  unfold category_of, status_is. split.
  - destruct t as [t'|]; [|discriminate].
    destruct (completionStatus t') as [st|] eqn:Est; [|discriminate].
    destruct (String.eqb (toUpperCase st) (toUpperCase Enum_Success)) eqn:E.
    + eauto.
    + simpl.
      destruct (String.eqb (toUpperCase st) (toUpperCase Enum_Warning));
        intros H; discriminate H.
  - intros (t' & st & -> & Hst & He). rewrite Hst, He. reflexivity.
Qed.

(** C1. In every run of [resetSource] the entitlement-reset job is started
    exactly once when the account-reset phase ends in category Success, and
    not at all when it ends in any other category (Warning, Failure,
    Cancelled), when it does not end, or when the user declines. *)
Theorem resetSource_entitlement_starts (toUpperCase : string -> string)
        (Enum_Success Enum_Warning : string) (w : World) (fuel : nat)
        (item : SourceTreeItem) :
  let starts :=
    count is_StartEntitlementReset
          (snd (resetSource toUpperCase Enum_Success Enum_Warning w fuel item)) in
  let phase :=
    fst (resetAccounts toUpperCase Enum_Success Enum_Warning w fuel item false) in
  let confirmed :=
    answer w ("Are you sure you want to reset the source "
              +:+ source_label item +:+ "?") in
  (confirmed = true ->
   forall task, phase = Done task ->
     category_of toUpperCase Enum_Success Enum_Warning task = Success ->
     starts = 1)
  /\ (forall task, phase = Done task ->
        category_of toUpperCase Enum_Success Enum_Warning task <> Success ->
        starts = 0)
  /\ ((forall task, phase <> Done task) -> starts = 0)
  /\ (confirmed = false -> starts = 0).
Proof.
  intros starts phase confirmed.
  assert (Hstarts : starts =
    if confirmed
    then match phase with
         | Done (Some t) =>
             match completionStatus t with
             | Some st =>
                 if String.eqb (toUpperCase st) (toUpperCase Enum_Success)
                 then 1 else 0
             | None => 0
             end
         | _ => 0
         end
    else 0).
  { unfold starts, resetSource.
    rewrite snd_bind, count_app. unfold confirm at 1 2.
    rewrite fst_bind, snd_bind. simpl. fold confirmed.
    destruct confirmed; simpl; [|reflexivity].
    rewrite snd_bind, count_app, resetAccounts_no_start. fold phase. simpl.
    destruct phase as [[t|]|e|]; try reflexivity.
    destruct (completionStatus t) as [st|]; [|reflexivity].
    destruct (String.eqb _ _); [|reflexivity].
    rewrite snd_bind, count_app, resetEntitlements_one_start.
    destruct (fst _); reflexivity. }
  repeat split.
  - intros Hc task Hp Hcat. rewrite Hstarts, Hc, Hp.
    destruct (proj1 (category_of_Success _ _ _ _) Hcat) as (t' & st & -> & Hst & He).
    rewrite Hst, He. reflexivity.
  - intros task Hp Hcat. rewrite Hstarts, Hp.
    destruct confirmed; [|reflexivity].
    destruct task as [t|]; [|reflexivity].
    destruct (completionStatus t) as [st|] eqn:Est; [|reflexivity].
    destruct (String.eqb _ _) eqn:E; [|reflexivity].
    exfalso. apply Hcat. apply category_of_Success. eauto.
  - intros Hp. rewrite Hstarts.
    destruct confirmed; [|reflexivity].
    destruct phase as [task|e|]; try reflexivity.
    exfalso. exact (Hp task eq_refl).
  - intros Hc. rewrite Hstarts, Hc. reflexivity.
Qed.

Lemma resetSource_entitlement_starts_witness :
  let w := world (fun _ => Some "Success"%string) 9 true in
  answer w "Are you sure you want to reset the source HR?" = true
  /\ count is_StartEntitlementReset
           (snd (resetSource toUpperCase_ascii "SUCCESS" "WARNING" w 3 HR)) = 1.
Proof.
  split; [reflexivity|].
  exact (proj1 (resetSource_entitlement_starts toUpperCase_ascii "SUCCESS" "WARNING"
                  (world (fun _ => Some "Success"%string) 9 true) 3 HR)
               eq_refl
               (Some (mkTask "reset-accounts" (Some "Success"%string) []))
               eq_refl eq_refl).
Defined.

(** A poll whose first [n] iterations see the signal down and a task that
    has not completed behaves, after [n] status fetches, like the poll
    from iteration [n] on. *)
Lemma waifForJob_from_running (w : World) (client : ISCClient) (taskId : string)
      (token : nat -> bool) (fuel n : nat) : forall k,
  (forall i, i < n ->
     token (k + i) = false
     /\ exists t, getTaskStatus w client taskId (k + i) = Ok t /\ terminal t = false) ->
  fst (waifForJob_from w (n + fuel) client taskId token k)
  = fst (waifForJob_from w fuel client taskId token (k + n))
  /\ count is_GetTaskStatus (snd (waifForJob_from w (n + fuel) client taskId token k))
     = n + count is_GetTaskStatus
             (snd (waifForJob_from w fuel client taskId token (k + n))).
Proof.
  induction n as [|n IH]; intros k Hrun.
  - rewrite Nat.add_0_r. auto.
  - destruct (Hrun 0 ltac:(lia)) as (Htok & t & Hfetch & Hterm).
    rewrite Nat.add_0_r in Htok, Hfetch.
    destruct (IH (S k)) as [IH1 IH2].
    { intros i Hi. replace (S k + i) with (k + S i) by lia. apply Hrun. lia. }
    replace (S k + n) with (k + S n) in IH1, IH2 by lia.
    change (waifForJob_from w (S n + fuel) client taskId token k)
      with (if token k then ret None
            else bind (await (GetTaskStatus taskId) (getTaskStatus w client taskId k))
                   (fun t => if terminal t then ret (Some t)
                             else bind (call Delay)
                                    (fun _ => waifForJob_from w (n + fuel) client
                                                taskId token (S k)))).
    rewrite Htok, Hfetch, fst_bind, snd_bind. simpl. rewrite Hterm.
    rewrite fst_bind, snd_bind. simpl. rewrite IH1. split; [reflexivity|].
    change (GetTaskStatus taskId :: Delay :: ?l)
      with ([GetTaskStatus taskId; Delay] ++ l).
    rewrite count_app, IH2. reflexivity.
Qed.

(** A poll that sees a completed task at iteration [n] returns it, after
    [n + 1] status fetches. *)
Lemma waifForJob_completes (w : World) (client : ISCClient) (taskId : string)
      (token : nat -> bool) (fuel n : nat) (t : TaskStatusBeta) :
  n < fuel ->
  still_running w client taskId token n ->
  token n = false ->
  getTaskStatus w client taskId n = Ok t ->
  terminal t = true ->
  fst (waifForJob w fuel client taskId token) = Done (Some t)
  /\ count is_GetTaskStatus (snd (waifForJob w fuel client taskId token)) = S n.
Proof.
  intros Hfuel Hrun Htok Hfetch Hterm. unfold waifForJob.
  replace fuel with (n + S (fuel - S n)) by lia.
  destruct (waifForJob_from_running w client taskId token (S (fuel - S n)) n 0 Hrun)
    as [-> ->].
  simpl. rewrite Htok, fst_bind, snd_bind, Hfetch. simpl. rewrite Hterm. simpl.
  split; [reflexivity | unfold count; simpl; lia].
Qed.

(** A poll that sees the signal raised at iteration [n] returns nothing,
    after [n] status fetches. *)
Lemma waifForJob_cancels (w : World) (client : ISCClient) (taskId : string)
      (token : nat -> bool) (fuel n : nat) :
  n < fuel ->
  still_running w client taskId token n ->
  token n = true ->
  fst (waifForJob w fuel client taskId token) = Done None
  /\ count is_GetTaskStatus (snd (waifForJob w fuel client taskId token)) = n.
Proof.
  intros Hfuel Hrun Htok. unfold waifForJob.
  replace fuel with (n + S (fuel - S n)) by lia.
  destruct (waifForJob_from_running w client taskId token (S (fuel - S n)) n 0 Hrun)
    as [-> ->].
  simpl. rewrite Htok. simpl. split; [reflexivity | unfold count; simpl; lia].
Qed.

(** C9. When the cancellation signal is already raised before the first
    job-status fetch, the poll returns category Cancelled (no task) and
    has performed no job-status fetch; indeed no call at all. *)
Theorem waifForJob_cancelled_before_first_fetch (toUpperCase : string -> string)
        (Enum_Success Enum_Warning : string) (w : World) (fuel : nat)
        (client : ISCClient) (taskId : string) (token : nat -> bool) :
  token 0 = true ->
  let poll := waifForJob w (S fuel) client taskId token in
  (exists r, fst poll = Done r
             /\ category_of toUpperCase Enum_Success Enum_Warning r = Cancelled)
  /\ count is_GetTaskStatus (snd poll) = 0
  /\ snd poll = [].
Proof.
  intros Htoken poll.
  assert (Hpoll : poll = (Done None, [])).
  { unfold poll, waifForJob. simpl. rewrite Htoken. reflexivity. }
  rewrite Hpoll. split; [exists None; split; reflexivity|]. split; reflexivity.
Qed.

Lemma waifForJob_cancelled_before_first_fetch_witness :
  let w := world (fun _ => Some "SUCCESS"%string) 0 true in
  isCancellationRequested w "Resetting accounts from HR" 0 = true
  /\ count is_GetTaskStatus
           (snd (waifForJob w 5 (clientOf HR) "reset-accounts"
                   (isCancellationRequested w "Resetting accounts from HR"))) = 0.
Proof.
  split; [reflexivity|].
  exact (proj1 (proj2 (waifForJob_cancelled_before_first_fetch toUpperCase_ascii
                  "SUCCESS" "WARNING" (world (fun _ => Some "SUCCESS"%string) 0 true)
                  4 (clientOf HR) "reset-accounts" (fun n => (0 <=? n)%nat) eq_refl))).
Defined.

(** The confirmation in front of a reset lets the operation through when
    it is switched off or the user agrees. *)
Lemma confirmation_passed (w : World) (doConfirm : bool) (prompt : string) :
  (doConfirm = true -> answer w prompt = true) ->
  (if doConfirm
   then bind (confirm w prompt) (fun ok => ret (negb ok))
   else ret false)
  = (Done false, if doConfirm then [Confirm prompt] else []).
Proof.
  intros H. destruct doConfirm; [|reflexivity].
  unfold confirm, bind, call, ret. simpl. rewrite (H eq_refl). reflexivity.
Qed.

(** C7, as the code has it.  Of the single operations only the account
    reset hands the poll's result to its caller: when the polled job is
    seen completed (at the [n]-th status fetch, the signal not raised
    until then) it returns that task, and when the signal is raised first
    it returns nothing.  The entitlement reset returns nothing even when
    its job is seen completed, and nothing in every run that returns; the
    two aggregations have no return value at all (their type is
    [M unit]).  This holds with the confirmation switched off and with a
    user who confirms. *)
Theorem single_operations_return (toUpperCase : string -> string)
        (Enum_Success Enum_Warning : string) (w : World) (fuel : nat)
        (item : SourceTreeItem) (doConfirm : bool) (n : nat) :
  let client := clientOf item in
  let promptA := ("Are you sure you want to reset accounts for "
                  +:+ source_label item +:+ "?")%string in
  let promptE := ("Are you sure you want to reset entitlements for "
                  +:+ source_label item +:+ "?")%string in
  let tokenA := isCancellationRequested w
                  ("Resetting accounts from " +:+ source_label item) in
  let tokenE := isCancellationRequested w
                  ("Resetting entitlements from " +:+ source_label item) in
  n < fuel ->
  (forall r,
      fst (resetEntitlements toUpperCase Enum_Success Enum_Warning w fuel item
             doConfirm) = Done r ->
      r = None)
  /\ (forall job t,
         (doConfirm = true -> answer w promptA = true) ->
         startAccountReset w client (source_id item) = Ok job ->
         still_running w client (job_id job) tokenA n ->
         tokenA n = false ->
         getTaskStatus w client (job_id job) n = Ok t ->
         terminal t = true ->
         fst (resetAccounts toUpperCase Enum_Success Enum_Warning w fuel item
                doConfirm) = Done (Some t))
  /\ (forall job,
         (doConfirm = true -> answer w promptA = true) ->
         startAccountReset w client (source_id item) = Ok job ->
         still_running w client (job_id job) tokenA n ->
         tokenA n = true ->
         fst (resetAccounts toUpperCase Enum_Success Enum_Warning w fuel item
                doConfirm) = Done None)
  /\ (forall job t,
         (doConfirm = true -> answer w promptE = true) ->
         startEntitlementReset w client (source_id item) = Ok job ->
         still_running w client (job_id job) tokenE n ->
         tokenE n = false ->
         getTaskStatus w client (job_id job) n = Ok t ->
         terminal t = true ->
         fst (resetEntitlements toUpperCase Enum_Success Enum_Warning w fuel item
                doConfirm) = Done None).
Proof.
  intros client promptA promptE tokenA tokenE Hfuel.
  split.
  { intros r. unfold resetEntitlements.
    rewrite fst_bind.
    destruct (fst _) as [declined|e|]; try discriminate.
    destruct declined.
    - simpl. intros [= <-]. reflexivity.
    - rewrite fst_bind. destruct (fst _); try discriminate.
      simpl. intros [= <-]. reflexivity. }
  assert (Haccounts : forall job polled,
    (doConfirm = true -> answer w promptA = true) ->
    startAccountReset w client (source_id item) = Ok job ->
    fst (waifForJob w fuel client (job_id job) tokenA) = Done polled ->
    fst (resetAccounts toUpperCase Enum_Success Enum_Warning w fuel item doConfirm)
    = Done polled).
  { intros job polled Hc Hstart Hpoll.
    unfold resetAccounts, withProgress. fold client promptA tokenA.
    rewrite (confirmation_passed w doConfirm promptA Hc).
    rewrite fst_bind. simpl.
    rewrite fst_bind, Hstart. simpl.
    rewrite fst_bind, Hpoll, fst_bind, formatTask_done. reflexivity. }
  split; [|split].
  - intros job t Hc Hstart Hrun Htok Hfetch Hterm.
    apply (Haccounts job (Some t) Hc Hstart).
    apply (waifForJob_completes w client (job_id job) tokenA fuel n t); assumption.
  - intros job Hc Hstart Hrun Htok.
    apply (Haccounts job None Hc Hstart).
    apply (waifForJob_cancels w client (job_id job) tokenA fuel n); assumption.
  - intros job t Hc Hstart Hrun Htok Hfetch Hterm.
    unfold resetEntitlements, withProgress. fold client promptE tokenE.
    rewrite (confirmation_passed w doConfirm promptE Hc).
    rewrite fst_bind. simpl.
    rewrite fst_bind, fst_bind, Hstart. simpl.
    rewrite fst_bind.
    rewrite (proj1 (waifForJob_completes w client (job_id job) tokenE fuel n t
                      Hfuel Hrun Htok Hfetch Hterm)).
    rewrite fst_bind, formatTask_done. reflexivity.
Qed.

Lemma single_operations_return_witness :
  let w := world (fun n => if (n <? 2)%nat then None else Some "WARNING"%string)
                 9 true in
  2 < 5
  /\ startAccountReset w (clientOf HR) "2c91" = Ok (mkJob "reset-accounts")
  /\ still_running w (clientOf HR) "reset-accounts"
       (isCancellationRequested w "Resetting accounts from HR") 2
  /\ fst (resetAccounts toUpperCase_ascii "SUCCESS" "WARNING" w 5 HR true)
     = Done (Some (mkTask "reset-accounts" (Some "WARNING"%string) [])).
Proof.
  intros w.
  assert (Hrun : still_running w (clientOf HR) "reset-accounts"
                   (isCancellationRequested w "Resetting accounts from HR") 2).
  { intros i Hi. destruct i as [|[|i]]; [| |lia];
      (split; [reflexivity | eexists; split; reflexivity]). }
  split; [lia|]. split; [reflexivity|]. split; [exact Hrun|].
  exact (proj1 (proj2 (single_operations_return toUpperCase_ascii "SUCCESS" "WARNING"
           w 5 HR true 2 ltac:(lia)))
           (mkJob "reset-accounts")
           (mkTask "reset-accounts" (Some "WARNING"%string) [])
           (fun _ => eq_refl) eq_refl Hrun eq_refl eq_refl eq_refl).
Defined.

(** C7, as stated, fails for the entitlement reset: the polled job
    completes with Success and the operation still returns nothing. *)
Lemma resetEntitlements_returns_no_task :
  let w := world (fun _ => Some "SUCCESS"%string) 9 true in
  fst (waifForJob w 3 (clientOf HR) "reset-entitlements"
         (isCancellationRequested w "Resetting entitlements from HR"))
  = Done (Some (mkTask "reset-entitlements" (Some "SUCCESS"%string) []))
  /\ resetEntitlements toUpperCase_ascii "SUCCESS" "WARNING" w 3 HR false
     = (Done None,
        [StartEntitlementReset "2c91"; GetTaskStatus "reset-entitlements";
         ShowMessage Success "Entitlements for {0} successfully resetted" "HR"])
  /\ fst (resetEntitlements toUpperCase_ascii "SUCCESS" "WARNING" w 3 HR false)
     <> Done (Some (mkTask "reset-entitlements" (Some "SUCCESS"%string) [])).
Proof. repeat split; try reflexivity. discriminate. Qed.

(** ** The single-flight cache *)

Section CacheFacts.

Context {T : Type}.
Variable resolve : string -> nat -> result T.

Abbreviation Cache := (@CacheService.Cache T).
Abbreviation Event := CacheService.Event.
Abbreviation run := (CacheService.run resolve).
Abbreviation step := (CacheService.step resolve).
Abbreviation entries := (@CacheService.entries T).
Abbreviation invocations := (@CacheService.invocations T).
Abbreviation received := (@CacheService.received T).
Abbreviation callers := CacheService.callers.
Abbreviation Pending := (@CacheService.Pending T).
Abbreviation Resolved := (@CacheService.Resolved T).
Abbreviation Get := CacheService.Get.
Abbreviation Settle := CacheService.Settle.
Abbreviation unsettled := CacheService.unsettled.

Lemma received_deliver (k key : string) (r : result T) (cs : list nat) :
  filter (fun d : nat * string * result T => d.1.2 = k)
         (map (fun caller => (caller, key, r)) cs)
  = if decide (key = k) then map (fun caller => (caller, key, r)) cs else [].
Proof.
  induction cs as [|c cs IH]; simpl.
  - destruct (decide (key = k)); reflexivity.
  - rewrite filter_cons. simpl. rewrite IH.
    destruct (decide (key = k)); reflexivity.
Qed.

Lemma invocations_invoke (k key : string) (c : Cache) l :
  length (filter (fun k' => k' = k) (l ++ [key]))
  = length (filter (fun k' => k' = k) l) + (if decide (key = k) then 1 else 0).
Proof.
  rewrite filter_app, length_app. f_equal.
  rewrite filter_cons, filter_nil. destruct (decide (key = k)); reflexivity.
Qed.

(** An event on another key leaves everything about [k] as it is. *)
Lemma step_other (k : string) (c : Cache) (e : Event) :
  CacheService.key_of e <> k ->
  entries (step c e) !! k = entries c !! k
  /\ invocations k (step c e) = invocations k c
  /\ received k (step c e) = received k c.
Proof.
  intros Hne. destruct e as [caller key | key]; simpl in *.
  - unfold CacheService.get.
    destruct (entries c !! key) as [[n cs|v]|] eqn:E;
      unfold CacheService.invocations, CacheService.received; simpl.
    + rewrite lookup_insert_ne by exact Hne. auto.
    + rewrite filter_app, filter_cons_False, filter_nil, app_nil_r
        by (simpl; exact Hne).
      auto.
    + rewrite lookup_insert_ne by exact Hne.
      rewrite (invocations_invoke k key c), decide_False by exact Hne.
      rewrite Nat.add_0_r. auto.
  - unfold CacheService.settle.
    destruct (entries c !! key) as [[n cs|v]|] eqn:E; auto.
    destruct (resolve key n) as [v|err];
      unfold CacheService.invocations, CacheService.received; simpl;
      rewrite filter_app, received_deliver, decide_False, app_nil_r by exact Hne.
    + rewrite lookup_insert_ne by exact Hne. auto.
    + rewrite lookup_delete_ne by exact Hne. auto.
Qed.

Lemma callers_cons (k : string) (e : Event) (events : list Event) :
  callers k (e :: events) =
  match e with
  | CacheService.Get caller key =>
      if decide (key = k) then caller :: callers k events else callers k events
  | CacheService.Settle _ => callers k events
  end.
Proof.
  unfold CacheService.callers. simpl.
  destruct e as [caller key|key]; [|reflexivity].
  destruct (decide (key = k)); reflexivity.
Qed.

(** While the resolution of [k] is outstanding, every further caller
    attaches to it: no invocation, no delivery. *)
Lemma run_pending (k : string) (events : list Event) :
  forall (c : Cache) n ws,
    unsettled k events ->
    entries c !! k = Some (Pending n ws) ->
    entries (run events c) !! k = Some (Pending n (ws ++ callers k events))
    /\ invocations k (run events c) = invocations k c
    /\ received k (run events c) = received k c.
Proof.
  induction events as [|e events IH]; intros c n ws Hu Hk.
  - simpl. rewrite app_nil_r. auto.
  - apply Forall_cons in Hu as [He Hu].
    change (run (e :: events) c) with (run events (step c e)).
    rewrite callers_cons.
    destruct (decide (CacheService.key_of e = k)) as [Heq|Hne].
    + destruct e as [caller key|key]; simpl in Heq; subst key; [|congruence].
      rewrite decide_True by reflexivity.
      assert (Hstep : step c (Get caller k)
                      = CacheService.mkCache
                          (<[k := Pending n (ws ++ [caller])]> (entries c))
                          (CacheService.invoked c) (CacheService.delivered c)).
      { simpl. unfold CacheService.get. rewrite Hk. reflexivity. }
      destruct (IH (step c (Get caller k)) n (ws ++ [caller]) Hu) as (H1 & H2 & H3).
      { rewrite Hstep. simpl. apply lookup_insert_eq. }
      rewrite H1, H2, H3, Hstep, <- app_assoc. auto.
    + destruct (step_other k c e Hne) as (S1 & S2 & S3).
      destruct (IH (step c e) n ws Hu) as (H1 & H2 & H3).
      { rewrite S1. exact Hk. }
      rewrite H1, H2, H3, S2, S3.
      destruct e as [caller key|key]; simpl in Hne;
        [rewrite decide_False by exact Hne|]; auto.
Qed.

(** From a cache without an entry for [k]: the first caller invokes the
    resolver, once, and everyone else attaches. *)
Lemma run_absent (k : string) (events : list Event) :
  forall (c : Cache),
    unsettled k events ->
    entries c !! k = None ->
    callers k events <> [] ->
    entries (run events c) !! k
    = Some (Pending (invocations k c) (callers k events))
    /\ invocations k (run events c) = S (invocations k c)
    /\ received k (run events c) = received k c.
Proof.
  induction events as [|e events IH]; intros c Hu Hk Hne0.
  - exfalso. apply Hne0. reflexivity.
  - apply Forall_cons in Hu as [He Hu].
    change (run (e :: events) c) with (run events (step c e)).
    rewrite callers_cons in Hne0 |- *.
    destruct (decide (CacheService.key_of e = k)) as [Heq|Hne].
    + destruct e as [caller key|key]; simpl in Heq; subst key; [|congruence].
      rewrite decide_True by reflexivity.
      assert (Hstep : step c (Get caller k)
                      = CacheService.mkCache
                          (<[k := Pending (invocations k c) [caller]]> (entries c))
                          (CacheService.invoked c ++ [k])
                          (CacheService.delivered c)).
      { simpl. unfold CacheService.get. rewrite Hk. reflexivity. }
      destruct (run_pending k events (step c (Get caller k))
                  (invocations k c) [caller] Hu) as (H1 & H2 & H3).
      { rewrite Hstep. simpl. apply lookup_insert_eq. }
      rewrite H1, H2, H3, Hstep. repeat split.
      unfold CacheService.invocations. simpl.
      rewrite (invocations_invoke k k c), decide_True by reflexivity. lia.
    + destruct (step_other k c e Hne) as (S1 & S2 & S3).
      assert (Hc : callers k events <> []).
      { destruct e as [caller key|key]; simpl in Hne;
          [rewrite decide_False in Hne0 by exact Hne|]; exact Hne0. }
      destruct (IH (step c e) Hu) as (H1 & H2 & H3); [congruence | exact Hc |].
      rewrite H1, H2, H3, S2, S3.
      destruct e as [caller key|key]; simpl in Hne;
        [rewrite decide_False by exact Hne|]; auto.
Qed.

(** One flight: concurrent callers of an uncached key, then the
    settlement.  The resolver ran once, every caller got its outcome,
    and the entry is the value, or gone when the resolver failed. *)
Lemma single_flight (k : string) (events : list Event) (c : Cache) :
  unsettled k events ->
  entries c !! k = None ->
  callers k events <> [] ->
  let c' := run (events ++ [Settle k]) c in
  invocations k c' = S (invocations k c)
  /\ received k c'
     = received k c
       ++ map (fun caller => (caller, k, resolve k (invocations k c)))
              (callers k events)
  /\ entries c' !! k
     = match resolve k (invocations k c) with
       | Ok v => Some (Resolved v)
       | Throw _ => None
       end.
Proof.
  intros Hu Hk Hne c'.
  destruct (run_absent k events c Hu Hk Hne) as (H1 & H2 & H3).
  unfold c', CacheService.run. rewrite fold_left_app. simpl.
  fold (run events c). unfold CacheService.settle. rewrite H1.
  destruct (resolve k (invocations k c)) as [v|err];
    unfold CacheService.invocations, CacheService.received in *; simpl;
    rewrite filter_app, received_deliver, decide_True, H2, H3 by reflexivity.
  - rewrite lookup_insert_eq. auto.
  - rewrite lookup_delete_eq. auto.
Qed.

End CacheFacts.

(** C2. For every key [k] without an entry and every number of callers that
    enter [get(k)] before the resolution of [k] settles (calls on other keys
    may be interleaved), if the resolver's invocation succeeds with [v] then
    the resolver has been invoked for [k] exactly once more than before,
    every one of the callers has received [v], and [k] is resolved to [v]. *)
Theorem concurrent_gets_resolve_once {T : Type} (resolve : string -> nat -> result T)
        (k : string) (events : list CacheService.Event) (c : CacheService.Cache)
        (v : T) :
  CacheService.unsettled k events ->
  CacheService.entries c !! k = None ->
  CacheService.callers k events <> [] ->
  resolve k (CacheService.invocations k c) = Ok v ->
  let c' := CacheService.run resolve (events ++ [CacheService.Settle k]) c in
  CacheService.invocations k c' = S (CacheService.invocations k c)
  /\ CacheService.received k c'
     = CacheService.received k c
       ++ map (fun caller => (caller, k, Ok v)) (CacheService.callers k events)
  /\ CacheService.entries c' !! k = Some (CacheService.Resolved v).
Proof.
  intros Hu Hk Hne Hv c'.
  destruct (single_flight resolve k events c Hu Hk Hne) as (H1 & H2 & H3).
  fold c' in H1, H2, H3. rewrite Hv in H2, H3. auto.
Qed.

Lemma concurrent_gets_resolve_once_witness :
  let lookup := fun (key : string) (n : nat) =>
                  Ok (mkAccessProfile key ("id-" +:+ key)) in
  let events := [CacheService.Get 1 "Admins"; CacheService.Get 2 "Admins";
                 CacheService.Get 7 "Auditors"; CacheService.Get 3 "Admins"] in
  let c' := AccessProfileNameToIdCacheService.run lookup
              (events ++ [CacheService.Settle "Admins"]) CacheService.empty in
  CacheService.invocations "Admins" c' = 1
  /\ CacheService.received "Admins" c'
     = [(1, "Admins"%string, Ok "id-Admins"%string);
        (2, "Admins"%string, Ok "id-Admins"%string);
        (3, "Admins"%string, Ok "id-Admins"%string)].
Proof.
  intros lookup events c'.
  assert (Hu : CacheService.unsettled "Admins" events)
    by (repeat constructor; discriminate).
  assert (Hk : CacheService.entries (@CacheService.empty string) !! "Admins"%string = None)
    by apply lookup_empty.
  assert (Hne : CacheService.callers "Admins" events <> []) by discriminate.
  destruct (concurrent_gets_resolve_once
              (AccessProfileNameToIdCacheService.fetchFunction lookup)
              "Admins" events CacheService.empty "id-Admins" Hu Hk Hne eq_refl)
    as (H1 & H2 & _).
  split; [exact H1 | exact H2].
Defined.

(** C8. For every key [k] without an entry whose resolver fails at one
    attempt and succeeds at the next: the callers of the first flight all
    receive the error and the cache keeps no entry for [k]; the next
    [get(k)] invokes the resolver afresh and its callers receive the new
    value, to which [k] is then resolved. *)
Theorem failed_resolution_is_retried {T : Type} (resolve : string -> nat -> result T)
        (k : string) (first second : list CacheService.Event)
        (c : CacheService.Cache) (e : string) (v : T) :
  CacheService.entries c !! k = None ->
  CacheService.unsettled k first ->
  CacheService.callers k first <> [] ->
  CacheService.unsettled k second ->
  CacheService.callers k second <> [] ->
  resolve k (CacheService.invocations k c) = Throw e ->
  resolve k (S (CacheService.invocations k c)) = Ok v ->
  let failed := CacheService.run resolve (first ++ [CacheService.Settle k]) c in
  let retried := CacheService.run resolve (second ++ [CacheService.Settle k]) failed in
  CacheService.received k failed
  = CacheService.received k c
    ++ map (fun caller => (caller, k, Throw e)) (CacheService.callers k first)
  /\ CacheService.entries failed !! k = None
  /\ CacheService.invocations k failed = S (CacheService.invocations k c)
  /\ CacheService.invocations k retried = S (S (CacheService.invocations k c))
  /\ CacheService.received k retried
     = CacheService.received k failed
       ++ map (fun caller => (caller, k, Ok v)) (CacheService.callers k second)
  /\ CacheService.entries retried !! k = Some (CacheService.Resolved v).
Proof.
  intros Hk Hu1 Hc1 Hu2 Hc2 Hfail Hok failed retried.
  destruct (single_flight resolve k first c Hu1 Hk Hc1) as (F1 & F2 & F3).
  fold failed in F1, F2, F3. rewrite Hfail in F2, F3.
  destruct (single_flight resolve k second failed Hu2 F3 Hc2) as (R1 & R2 & R3).
  fold retried in R1, R2, R3. rewrite F1, Hok in R2, R3. rewrite F1 in R1.
  auto 10.
Qed.

Lemma failed_resolution_is_retried_witness :
  let lookup := fun (key : string) (n : nat) =>
                  if (n =? 0)%nat then Throw "404"%string
                  else Ok (mkAccessProfile key ("id-" +:+ key)) in
  let failed := AccessProfileNameToIdCacheService.run lookup
                  [CacheService.Get 1 "Admins"; CacheService.Settle "Admins"]
                  CacheService.empty in
  let retried := AccessProfileNameToIdCacheService.run lookup
                   [CacheService.Get 2 "Admins"; CacheService.Settle "Admins"]
                   failed in
  CacheService.entries failed !! "Admins"%string = None
  /\ CacheService.invocations "Admins" retried = 2
  /\ CacheService.received "Admins" retried
     = [(1, "Admins"%string, Throw "404"%string);
        (2, "Admins"%string, Ok "id-Admins"%string)].
Proof.
  intros lookup failed retried.
  assert (Hk : CacheService.entries (@CacheService.empty string) !! "Admins"%string = None)
    by apply lookup_empty.
  assert (Hu1 : CacheService.unsettled "Admins" [CacheService.Get 1 "Admins"])
    by (repeat constructor; discriminate).
  assert (Hu2 : CacheService.unsettled "Admins" [CacheService.Get 2 "Admins"])
    by (repeat constructor; discriminate).
  assert (Hc1 : CacheService.callers "Admins" [CacheService.Get 1 "Admins"] <> [])
    by discriminate.
  assert (Hc2 : CacheService.callers "Admins" [CacheService.Get 2 "Admins"] <> [])
    by discriminate.
  destruct (failed_resolution_is_retried
              (AccessProfileNameToIdCacheService.fetchFunction lookup)
              "Admins" [CacheService.Get 1 "Admins"] [CacheService.Get 2 "Admins"]
              CacheService.empty "404" "id-Admins" Hk Hu1 Hc1 Hu2 Hc2 eq_refl eq_refl)
    as (F1 & F2 & _ & R1 & R2 & _).
  split; [exact F2|]. split; [exact R1|].
  etrans; [exact R2|]. reflexivity.
Defined.

(** Over the whole life of a cache whose resolver succeeds for [k] with
    [v], whatever the callers do and whenever resolutions settle: the
    resolver is invoked for [k] at most once, and nobody ever receives
    anything but [v] for [k]. *)
Lemma resolver_invoked_at_most_once {T : Type} (resolve : string -> nat -> result T)
      (k : string) (v : T) (events : list CacheService.Event) :
  resolve k 0 = Ok v ->
  let c := CacheService.run resolve events CacheService.empty in
  CacheService.invocations k c <= 1
  /\ Forall (fun d => d.2 = Ok v) (CacheService.received k c).
Proof.
  intros Hv.
  set (Inv := fun c : CacheService.Cache =>
    Forall (fun d => d.2 = Ok v) (CacheService.received k c)
    /\ match CacheService.entries c !! k with
       | None => CacheService.invocations k c = 0
       | Some (CacheService.Pending n _) => n = 0 /\ CacheService.invocations k c = 1
       | Some (CacheService.Resolved v') => v' = v /\ CacheService.invocations k c = 1
       end).
  assert (Hstep : forall c e, Inv c -> Inv (CacheService.step resolve c e)).
  { intros c e [Hr He].
    destruct (decide (CacheService.key_of e = k)) as [Heq|Hne].
    - destruct e as [caller key|key]; simpl in Heq; subst key; simpl.
      + unfold CacheService.get.
        destruct (CacheService.entries c !! k) as [[n ws|v']|] eqn:E;
          split; simpl; try exact Hr.
        * rewrite lookup_insert_eq. exact He.
        * unfold CacheService.received. simpl. rewrite filter_app.
          apply Forall_app. split; [exact Hr|].
          rewrite filter_cons_True, filter_nil by reflexivity.
          destruct He as [-> _]. repeat constructor.
        * rewrite E. exact He.
        * rewrite lookup_insert_eq. split; [exact He|].
          unfold CacheService.invocations in *. simpl.
          rewrite (invocations_invoke k k c), decide_True by reflexivity. lia.
      + unfold CacheService.settle.
        destruct (CacheService.entries c !! k) as [[n ws|v']|] eqn:E;
          [| split; [exact Hr | rewrite E; exact He]
           | split; [exact Hr | rewrite E; exact He]].
        destruct He as [-> Hi]. rewrite Hv. split; simpl.
        * unfold CacheService.received. simpl. rewrite filter_app.
          apply Forall_app. split; [exact Hr|].
          rewrite received_deliver, decide_True by reflexivity.
          apply Forall_forall. intros d Hd.
          apply list_elem_of_fmap in Hd as (caller & -> & _). reflexivity.
        * rewrite lookup_insert_eq. auto.
    - destruct (step_other resolve k c e Hne) as (S1 & S2 & S3).
      unfold Inv. rewrite S1, S2, S3. split; assumption. }
  assert (Hrun : forall c, Inv c -> Inv (CacheService.run resolve events c)).
  { induction events as [|e es IH]; intros c Hc; [exact Hc|].
    apply (IH (CacheService.step resolve c e)). apply Hstep. exact Hc. }
  intros c. destruct (Hrun CacheService.empty) as [Hr He].
  { split; [constructor|]. simpl. rewrite lookup_empty. reflexivity. }
  fold c in Hr, He. split; [|exact Hr].
  destruct (CacheService.entries c !! k) as [[n ws|v']|]; lia.
Qed.

(** * Further properties *)

(** ** Pageable folder nodes under arbitrary use *)

Section PageableInvariants.

Variable mkItem : string -> string -> BaseTreeItem.
Variable emptyLabel : string.

Abbreviation item' := (fun x : Resource => mkItem (name x) (id x)).

Lemma accept_limit response s :
  limit (Pageable.accept mkItem emptyLabel response s) = limit s
  /\ filters (Pageable.accept mkItem emptyLabel response s) = filters s.
Proof.
  unfold Pageable.accept.
  destruct (strict_eq_zero (_total s)); simpl;
    destruct (strict_eq_zero _); simpl; auto;
    destruct (Pageable.hasMore _); auto.
Qed.

(** The children a response leaves behind. *)
Lemma accept_children response s :
  children (Pageable.accept mkItem emptyLabel response s) =
  if strict_eq_zero (total_after response s)
  then [MessageNode emptyLabel]
  else children s ++ map item' (data response)
       ++ (if gt_length (total_after response s)
                        (length (children s) + length (data response))
           then [LoadMoreNode] else []).
Proof.
  unfold Pageable.accept, total_after, Pageable.hasMore.
  destruct (strict_eq_zero (_total s)) eqn:E0; simpl.
  - destruct (strict_eq_zero (totalCount response)); simpl; [reflexivity|].
    rewrite length_app, length_map.
    destruct (gt_length _ _); simpl; rewrite <- ?app_assoc, ?app_nil_r; reflexivity.
  - rewrite E0. simpl. rewrite length_app, length_map.
    destruct (gt_length _ _); simpl; rewrite <- ?app_assoc, ?app_nil_r; reflexivity.
Qed.

Lemma loadMore_limit search s :
  limit (snd (Pageable.loadMore mkItem emptyLabel search s)) = limit s
  /\ filters (snd (Pageable.loadMore mkItem emptyLabel search s)) = filters s.
Proof.
  unfold Pageable.loadMore.
  destruct (discardTrailing_fields s) as (_ & Hl & Hf & _).
  destruct (search _); simpl; [|auto].
  destruct (accept_limit a (Pageable.discardTrailing s)) as [-> ->]. auto.
Qed.

Lemma loadMore_offset_step search s :
  currentOffset (snd (Pageable.loadMore mkItem emptyLabel search s)) = currentOffset s
  \/ currentOffset (snd (Pageable.loadMore mkItem emptyLabel search s))
     = (currentOffset s + limit s)%Z.
Proof.
  unfold Pageable.loadMore.
  destruct (discardTrailing_fields s) as (Ho & Hl & _ & _).
  destruct (search _); simpl; [|auto].
  rewrite accept_currentOffset, Ho, Hl. destruct (gt_length _ _); auto.
Qed.

Lemma forallb_removelast (l : list BaseTreeItem) :
  forallb is_resource l = true -> forallb is_resource (removelast l) = true.
Proof.
  induction l as [|x l IH]; [reflexivity|].
  simpl. intros H. apply andb_prop in H as [Hx Hl].
  destruct l; [reflexivity|]. simpl in *. rewrite Hx. simpl. apply IH, Hl.
Qed.

Hypothesis mkItem_resource : forall n i, is_resource (mkItem n i) = true.

Lemma forallb_items (l : list Resource) : forallb is_resource (map item' l) = true.
Proof using Type*.
  induction l as [|x l IH]; [reflexivity|].
  simpl. rewrite mkItem_resource. exact IH.
Qed.

Lemma loadMore_synthetic_only_last search s :
  synthetic_only_last (children s) = true ->
  synthetic_only_last
    (children (snd (Pageable.loadMore mkItem emptyLabel search s))) = true.
Proof using Type*.
  unfold synthetic_only_last. intros H. unfold Pageable.loadMore.
  assert (Hp : forallb is_resource (children (Pageable.discardTrailing s)) = true).
  { rewrite discardTrailing_children. exact H. }
  destruct (search _) as [response|e]; simpl.
  - rewrite accept_children.
    destruct (strict_eq_zero _); [reflexivity|].
    destruct (gt_length _ _).
    + rewrite app_assoc, removelast_last, forallb_app, Hp, forallb_items.
      reflexivity.
    + rewrite app_nil_r. apply forallb_removelast.
      rewrite forallb_app, Hp, forallb_items. reflexivity.
  - apply forallb_removelast. exact Hp.
Qed.

Lemma applyOp_synthetic_only_last s op :
  synthetic_only_last (children s) = true ->
  synthetic_only_last (children (applyOp mkItem emptyLabel s op)) = true.
Proof using Type*.
  intros H. destruct op as [search|search|]; simpl.
  - apply loadMore_synthetic_only_last, H.
  - unfold Pageable.getChildren.
    destruct (length (children s) =? 0)%nat; [|exact H].
    pose proof (loadMore_synthetic_only_last search s H) as H'.
    destruct (Pageable.loadMore mkItem emptyLabel search s) as [[?|?] s']; exact H'.
  - reflexivity.
Qed.

Lemma applyOps_synthetic_only_last ops : forall s,
  synthetic_only_last (children s) = true ->
  synthetic_only_last (children (applyOps mkItem emptyLabel ops s)) = true.
Proof using Type*.
  induction ops as [|op ops IH]; intros s H; [exact H|].
  apply (IH (applyOp mkItem emptyLabel s op)), applyOp_synthetic_only_last, H.
Qed.

End PageableInvariants.

(** One use moves the offset by at most one page. *)
Lemma applyOp_offset_aligned mkItem emptyLabel (l : Z) (j : nat) s op :
  (limit s = l /\ filters s = "*"%string
   /\ exists k : nat, k <= j /\ currentOffset s = (Z.of_nat k * l)%Z) ->
  let s' := applyOp mkItem emptyLabel s op in
  limit s' = l /\ filters s' = "*"%string
  /\ exists k : nat, k <= S j /\ currentOffset s' = (Z.of_nat k * l)%Z.
Proof.
  intros (Hl & Hf & k & Hkj & Hk).
  assert (Hload : forall search,
    let s' := snd (Pageable.loadMore mkItem emptyLabel search s) in
    limit s' = l /\ filters s' = "*"%string
    /\ exists k : nat, k <= S j /\ currentOffset s' = (Z.of_nat k * l)%Z).
  { intros search s'.
    destruct (loadMore_limit mkItem emptyLabel search s) as [Hl' Hf'].
    fold s' in Hl', Hf'. rewrite Hl', Hf'. repeat split; auto.
    destruct (loadMore_offset_step mkItem emptyLabel search s) as [H|H];
      fold s' in H; rewrite H.
    - exists k. split; [lia | exact Hk].
    - exists (S k). split; [lia|]. rewrite Hk, Hl. lia. }
  destruct op as [search|search|]; simpl.
  - apply Hload.
  - unfold Pageable.getChildren.
    destruct (length (children s) =? 0)%nat.
    + specialize (Hload search).
      destruct (Pageable.loadMore mkItem emptyLabel search s) as [[?|?] s'];
        exact Hload.
    + simpl. repeat split; auto. exists k. split; [lia | exact Hk].
  - repeat split; auto. exists 0. split; [lia | reflexivity].
Qed.

(** X1. When a pageable folder is used serially from its creation on,
    every call having settled before the next one starts ([loadMore] and
    [getChildren] against any listing endpoint, failing or not, and
    [reset], in any order), a synthetic node (the "Load more" node or the
    empty-state message) is never followed by another child.  Calls in
    flight at once are outside this statement, and break it: see
    [overlapping_loadMore_misplaces_marker]. *)
Theorem synthetic_node_only_last (ops : list PageableOp) :
  synthetic_only_last
    (children (applyOps AccessProfileTreeItem "No access profile found" ops
                 AccessProfilesTreeItem.new)) = true
  /\ synthetic_only_last
       (children (applyOps RoleTreeItem "No role found" ops
                    RolesTreeItem.new)) = true.
Proof.
  split; apply applyOps_synthetic_only_last; reflexivity.
Qed.

(** Why X1 speaks of serial use: with the first page of ten loaded, two
    [loadMore] calls in flight at once leave the "Load more" node in the
    middle of the children, and the second page twice. *)
Lemma overlapping_loadMore_misplaces_marker :
  let item x := AccessProfileTreeItem (name x) (id x) in
  let s1 := snd (AccessProfilesTreeItem.loadMore (fetchPage ten)
                   (set_limit 4 AccessProfilesTreeItem.new)) in
  let s := loadMore_overlapping AccessProfileTreeItem "No access profile found"
             (fetchPage ten) (fetchPage ten) s1 in
  children s
  = map item (take 3 ten) ++ map item (take 4 (drop 4 ten))
    ++ [LoadMoreNode] ++ map item (take 4 (drop 4 ten))
  /\ synthetic_only_last (children s) = false.
Proof. split; reflexivity. Qed.

(** X2. When a pageable folder is used serially and the number of uses
    times the page size stays within the safe integers (so that every
    [+=] of the program on the offset is the exact sum): page size and
    filter stay what they were, and the offset is a whole number of
    pages, at most one per use, and a safe integer. *)
Theorem offset_page_aligned (mkItem : string -> string -> BaseTreeItem)
        (emptyLabel : string) (l : Z) (ops : list PageableOp) :
  (Z.of_nat (length ops) * Z.abs l <=? MAX_SAFE_INTEGER)%Z = true ->
  isSafeInteger l = true ->
  let s := applyOps mkItem emptyLabel ops (set_limit l Pageable.new) in
  limit s = l /\ filters s = "*"%string
  /\ (exists k : nat, k <= length ops /\ currentOffset s = (Z.of_nat k * l)%Z)
  /\ isSafeInteger (currentOffset s) = true.
Proof.
  intros Hbound _.
  assert (H : forall j s0,
    (limit s0 = l /\ filters s0 = "*"%string
     /\ exists k : nat, k <= j /\ currentOffset s0 = (Z.of_nat k * l)%Z) ->
    let s := applyOps mkItem emptyLabel ops s0 in
    limit s = l /\ filters s = "*"%string
    /\ exists k : nat, k <= j + length ops
                       /\ currentOffset s = (Z.of_nat k * l)%Z).
  { induction ops as [|op ops IH]; intros j s0 H0.
    - simpl. rewrite Nat.add_0_r. exact H0.
    - simpl length. replace (j + S (length ops)) with (S j + length ops) by lia.
      apply (IH ltac:(simpl length in Hbound; apply Z.leb_le in Hbound;
                      apply Z.leb_le; lia)
                (S j) (applyOp mkItem emptyLabel s0 op)).
      apply applyOp_offset_aligned, H0. }
  intros s.
  destruct (H 0 (set_limit l Pageable.new)) as (Hl & Hf & k & Hk & Ho).
  { repeat split. exists 0. split; [lia | reflexivity]. }
  fold s in Hl, Hf, Ho. simpl in Hk.
  split; [exact Hl|]. split; [exact Hf|]. split; [eauto|].
  rewrite Ho. unfold isSafeInteger.
  apply Z.leb_le in Hbound. unfold MAX_SAFE_INTEGER in *.
  apply andb_true_intro. split; apply Z.leb_le; nia.
Qed.

Lemma offset_page_aligned_witness :
  let s := applyOps AccessProfileTreeItem "No access profile found"
             [OpLoadMore (fetchPage ten); OpReset; OpGetChildren (fetchPage ten);
              OpLoadMore (fetchPage ten)]
             (set_limit 4 Pageable.new) in
  currentOffset s = 8%Z
  /\ (exists k : nat, k <= 4 /\ currentOffset s = (Z.of_nat k * 4)%Z)
  /\ isSafeInteger (currentOffset s) = true.
Proof.
  intros s. split; [reflexivity|].
  exact (proj2 (proj2 (offset_page_aligned AccessProfileTreeItem
                         "No access profile found" 4
                         [OpLoadMore (fetchPage ten); OpReset;
                          OpGetChildren (fetchPage ten); OpLoadMore (fetchPage ten)]
                         eq_refl eq_refl))).
Defined.

(** ** Paging through a listing that answers with the requested window *)

Lemma loadMores_app mkItem emptyLabel (l1 l2 : list Search) s :
  Pageable.loadMores mkItem emptyLabel (l1 ++ l2) s
  = Pageable.loadMores mkItem emptyLabel l2
      (Pageable.loadMores mkItem emptyLabel l1 s).
Proof.
  revert s. induction l1 as [|f l1 IH]; intros s; [reflexivity|].
  simpl. apply IH.
Qed.

(** One call against [fetchPage remote], from a node that has accumulated
    the first [m] items (and possibly a trailing node) and whose stored
    total is still 0 or already the collection's size. *)
Lemma loadMore_next_page mkItem emptyLabel (remote : list Resource) (p m : nat) s :
  0 < p -> 0 < length remote ->
  limit s = Z.of_nat p ->
  currentOffset s = Z.of_nat m ->
  removelast (children s) = map (fun x => mkItem (name x) (id x)) (take m remote) ->
  (_total s = Num 0 \/ _total s = Num (Z.of_nat (length remote))) ->
  let s' := snd (Pageable.loadMore mkItem emptyLabel (fetchPage remote) s) in
  children s'
  = map (fun x => mkItem (name x) (id x)) (take (m + p) remote)
    ++ (if m + p <? length remote then [LoadMoreNode] else [])
  /\ currentOffset s' = Z.of_nat (if m + p <? length remote then m + p else m)
  /\ _total s' = Num (Z.of_nat (length remote))
  /\ limit s' = Z.of_nat p.
Proof.
  intros Hp Hn Hl Ho Hc Ht s'.
  destruct (discardTrailing_fields s) as (Ho1 & Hl1 & Hf1 & Ht1).
  pose proof (discardTrailing_children s) as Hc1.
  set (s1 := Pageable.discardTrailing s) in *.
  set (response := mkResponse (take p (drop m remote))
                     (if strict_eq_zero (_total s)
                      then Num (Z.of_nat (length remote)) else NaN)).
  assert (Hfetch : fetchPage remote (Pageable.request s1) = Ok response).
  { unfold fetchPage, Pageable.request, response. simpl.
    rewrite Hl1, Ho1, Ht1, Hl, Ho, !Nat2Z.id. reflexivity. }
  assert (Htot : total_after response s1 = Num (Z.of_nat (length remote))).
  { unfold total_after. rewrite Ht1. unfold response. simpl.
    destruct Ht as [-> | ->]; simpl; [reflexivity|].
    destruct (Z.eqb_spec (Z.of_nat (length remote)) 0); [lia | reflexivity]. }
  assert (Hs' : s' = Pageable.accept mkItem emptyLabel response s1).
  { unfold s', Pageable.loadMore. fold s1. rewrite Hfetch. reflexivity. }
  assert (Hgt : gt_length (Num (Z.of_nat (length remote)))
                  (length (children s1) + length (data response))
                = (m + p <? length remote)).
  { rewrite Hc1, Hc, length_map. unfold response. simpl.
    rewrite !length_take, length_drop.
    destruct (Nat.ltb_spec (m + p) (length remote));
      destruct (Z.ltb_spec (Z.of_nat (m `min` length remote
                                      + p `min` (length remote - m)))
                           (Z.of_nat (length remote)));
      try reflexivity; lia. }
  rewrite Hs'. repeat split.
  - rewrite accept_children, Htot, Hgt. simpl.
    destruct (Z.eqb_spec (Z.of_nat (length remote)) 0); [lia|].
    rewrite Hc1, Hc. unfold response. simpl.
    rewrite app_assoc, <- map_app, take_take_drop. reflexivity.
  - rewrite accept_currentOffset, Htot, Hgt, Ho1, Hl1, Ho, Hl.
    destruct (m + p <? length remote); lia.
  - rewrite accept_total. exact Htot.
  - destruct (accept_limit mkItem emptyLabel response s1) as [-> _].
    rewrite Hl1. exact Hl.
Qed.

(** The node after [S k] calls, as long as the first [k] pages did not
    exhaust the collection. *)
Lemma paging mkItem emptyLabel (remote : list Resource) (p : nat) :
  0 < p -> 0 < length remote ->
  forall k, k * p < length remote ->
  let s := Pageable.loadMores mkItem emptyLabel
             (replicate (S k) (fetchPage remote))
             (set_limit (Z.of_nat p) Pageable.new) in
  children s
  = map (fun x => mkItem (name x) (id x)) (take (S k * p) remote)
    ++ (if S k * p <? length remote then [LoadMoreNode] else [])
  /\ currentOffset s = Z.of_nat (if S k * p <? length remote then S k * p else k * p)
  /\ _total s = Num (Z.of_nat (length remote))
  /\ limit s = Z.of_nat p.
Proof.
  intros Hp Hn. induction k as [|k IH]; intros Hk.
  - cbv zeta.
    change (Pageable.loadMores mkItem emptyLabel (replicate 1 (fetchPage remote))
              (set_limit (Z.of_nat p) Pageable.new))
      with (snd (Pageable.loadMore mkItem emptyLabel (fetchPage remote)
                   (set_limit (Z.of_nat p) Pageable.new))).
    replace (1 * p)%nat with (0 + p)%nat by lia.
    apply (loadMore_next_page mkItem emptyLabel remote p 0); auto.
  - assert (Hk' : k * p < length remote) by (simpl in Hk; lia).
    assert (Hlt : (S k * p <? length remote) = true) by (apply Nat.ltb_lt; exact Hk).
    destruct (IH Hk') as (Hc & Ho & Ht & Hl).
    rewrite Hlt in Hc, Ho.
    cbv zeta. rewrite (replicate_S_end (S k)), loadMores_app.
    set (sk := Pageable.loadMores mkItem emptyLabel
                 (replicate (S k) (fetchPage remote))
                 (set_limit (Z.of_nat p) Pageable.new)) in *.
    change (Pageable.loadMores mkItem emptyLabel [fetchPage remote] sk)
      with (snd (Pageable.loadMore mkItem emptyLabel (fetchPage remote) sk)).
    replace (S (S k) * p)%nat with (S k * p + p)%nat by (simpl; lia).
    apply loadMore_next_page; auto.
    rewrite Hc. apply removelast_last.
Qed.

(** X3. Against a listing endpoint that answers every request with the
    requested window of a non-empty collection, the [k+1]-th [loadMore]
    (while the first [k] pages have not exhausted the collection) leaves
    exactly the first [(k+1) * pageSize] items as children, in the
    collection's order and each once, followed by the "Load more" node
    exactly when items remain; the offset then points at the next page. *)
Theorem loadMore_pages_in_order (mkItem : string -> string -> BaseTreeItem)
        (emptyLabel : string) (remote : list Resource) (p k : nat) :
  0 < p -> 0 < length remote -> k * p < length remote ->
  let s := Pageable.loadMores mkItem emptyLabel
             (replicate (S k) (fetchPage remote))
             (set_limit (Z.of_nat p) Pageable.new) in
  children s
  = map (fun x => mkItem (name x) (id x)) (take (S k * p) remote)
    ++ (if S k * p <? length remote then [LoadMoreNode] else [])
  /\ (S k * p < length remote -> currentOffset s = Z.of_nat (S k * p))
  /\ (length remote <= S k * p ->
      children s = map (fun x => mkItem (name x) (id x)) remote).
Proof.
  intros Hp Hn Hk s.
  destruct (paging mkItem emptyLabel remote p Hp Hn k Hk) as (Hc & Ho & _ & _).
  fold s in Hc, Ho. split; [exact Hc|]. split.
  - intros Hlt. rewrite Ho.
    apply Nat.ltb_lt in Hlt. rewrite Hlt. reflexivity.
  - intros Hge. rewrite Hc.
    destruct (Nat.ltb_spec (S k * p) (length remote)); [lia|].
    rewrite app_nil_r, take_ge by exact Hge. reflexivity.
Qed.

Lemma loadMore_pages_in_order_witness :
  children (Pageable.loadMores AccessProfileTreeItem "No access profile found"
              (replicate 4 (fetchPage ten))
              (set_limit (Z.of_nat 3) Pageable.new))
  = map (fun x => AccessProfileTreeItem (name x) (id x)) ten.
Proof.
  apply (loadMore_pages_in_order AccessProfileTreeItem "No access profile found"
           ten 3 3); simpl; lia.
Defined.

(** X4. The [hasMore] getter counts the "Load more" node as a loaded item:
    when exactly one item of the collection is left to load, the node
    shows the "Load more" node and [hasMore] is nevertheless false. *)
Theorem hasMore_false_with_one_item_left (mkItem : string -> string -> BaseTreeItem)
        (emptyLabel : string) (remote : list Resource) (p k : nat) :
  0 < p -> length remote = S k * p + 1 ->
  let s := Pageable.loadMores mkItem emptyLabel
             (replicate (S k) (fetchPage remote))
             (set_limit (Z.of_nat p) Pageable.new) in
  children s
  = map (fun x => mkItem (name x) (id x)) (take (S k * p) remote) ++ [LoadMoreNode]
  /\ length (children s) = length remote
  /\ Pageable.hasMore s = false.
Proof.
  intros Hp Hlen s.
  assert (Hn : 0 < length remote) by lia.
  assert (Hk : k * p < length remote) by (simpl in Hlen; lia).
  destruct (paging mkItem emptyLabel remote p Hp Hn k Hk) as (Hc & _ & Ht & _).
  fold s in Hc, Ht.
  assert (Hlt : (S k * p <? length remote) = true) by (apply Nat.ltb_lt; lia).
  rewrite Hlt in Hc.
  assert (Hl : length (children s) = length remote).
  { rewrite Hc, length_app, length_map, length_take. simpl length. lia. }
  repeat split; [exact Hc | exact Hl |].
  unfold Pageable.hasMore. rewrite Ht, Hl. simpl. apply Z.ltb_irrefl.
Qed.

Lemma hasMore_false_with_one_item_left_witness :
  let s := Pageable.loadMores AccessProfileTreeItem "No access profile found"
             (replicate 3 (fetchPage ten))
             (set_limit (Z.of_nat 3) Pageable.new) in
  last (children s) = Some LoadMoreNode /\ Pageable.hasMore s = false.
Proof.
  destruct (hasMore_false_with_one_item_left AccessProfileTreeItem
              "No access profile found" ten 3 2 ltac:(lia) eq_refl)
    as (Hc & _ & Hh).
  split; [|exact Hh]. rewrite Hc. reflexivity.
Defined.

(** ** Failed fetches and the empty state *)

(** X5. When the listing call of a [loadMore] throws, the "Load more" node
    is already gone while offset and total are kept; the [loadMore] that
    retries then pops the collection item that was last loaded, fetches
    the same page again and appends it, so that item is lost. *)
Theorem loadMore_retry_loses_item (mkItem : string -> string -> BaseTreeItem)
        (emptyLabel : string) (failing retry : Search) (s : PageableNode)
        (loaded : list BaseTreeItem) (lastItem : BaseTreeItem)
        (e : string) (response : Response) :
  children s = loaded ++ [lastItem; LoadMoreNode] ->
  strict_eq_zero (_total s) = false ->
  failing (Pageable.request s) = Throw e ->
  retry (Pageable.request s) = Ok response ->
  let s1 := snd (Pageable.loadMore mkItem emptyLabel failing s) in
  let s2 := snd (Pageable.loadMore mkItem emptyLabel retry s1) in
  fst (Pageable.loadMore mkItem emptyLabel failing s) = Throw e
  /\ children s1 = loaded ++ [lastItem]
  /\ currentOffset s1 = currentOffset s
  /\ _total s1 = _total s
  /\ children s2
     = loaded ++ map (fun x => mkItem (name x) (id x)) (data response)
       ++ (if gt_length (_total s) (length loaded + length (data response))
           then [LoadMoreNode] else []).
Proof.
  intros Hc Ht Hfail Hretry s1 s2.
  assert (H1 : Pageable.loadMore mkItem emptyLabel failing s
               = (Throw e, Pageable.discardTrailing s)).
  { unfold Pageable.loadMore. rewrite request_discardTrailing, Hfail. reflexivity. }
  assert (Hs1 : s1 = Pageable.discardTrailing s) by (unfold s1; rewrite H1; reflexivity).
  destruct (discardTrailing_fields s) as (Ho & Hl & Hf & Htot).
  assert (Hc1 : children s1 = loaded ++ [lastItem]).
  { rewrite Hs1, discardTrailing_children, Hc.
    change (loaded ++ [lastItem; LoadMoreNode])
      with (loaded ++ [lastItem] ++ [LoadMoreNode]).
    rewrite app_assoc. apply removelast_last. }
  assert (Hreq : Pageable.request s1 = Pageable.request s).
  { rewrite Hs1. apply request_discardTrailing. }
  rewrite H1. repeat split; try (rewrite Hs1; assumption); [exact Hc1|].
  unfold s2, Pageable.loadMore.
  rewrite request_discardTrailing, Hreq, Hretry. simpl.
  rewrite accept_children. unfold total_after.
  destruct (discardTrailing_fields s1) as (_ & _ & _ & Htot1).
  rewrite Htot1, Hs1, Htot, Ht, Ht.
  rewrite discardTrailing_children. fold s1 in Hs1. rewrite <- Hs1, Hc1.
  rewrite removelast_last. reflexivity.
Qed.

Lemma loadMore_retry_loses_item_witness :
  let s1 := snd (AccessProfilesTreeItem.loadMore (fetchPage ten)
                   (set_limit 4 AccessProfilesTreeItem.new)) in
  let down : Search := fun _ => Throw "503"%string in
  children (snd (AccessProfilesTreeItem.loadMore (fetchPage ten)
                   (snd (AccessProfilesTreeItem.loadMore down s1))))
  = map (fun x => AccessProfileTreeItem (name x) (id x))
        (take 3 ten ++ take 4 (drop 4 ten))
    ++ [LoadMoreNode].
Proof.
  intros s1 down.
  destruct (loadMore_retry_loses_item AccessProfileTreeItem "No access profile found"
              down (fetchPage ten) s1
              (map (fun x => AccessProfileTreeItem (name x) (id x)) (take 3 ten))
              (AccessProfileTreeItem "ap3" "id3") "503"
              (mkResponse (take 4 (drop 4 ten)) NaN)
              eq_refl eq_refl eq_refl eq_refl)
    as (_ & _ & _ & _ & H).
  etrans; [exact H|]. reflexivity.
Defined.

(** X6. A node whose stored total is 0 and that shows nothing, or only the
    empty-state message, asks for the total again on its next [loadMore];
    when the response then reports a non-zero total, that total is
    stored, the message is gone and the fetched items are the children,
    followed by the "Load more" node exactly when the total exceeds
    their number. *)
Theorem loadMore_leaves_empty_state (mkItem : string -> string -> BaseTreeItem)
        (emptyLabel : string) (search : Search) (s : PageableNode)
        (response : Response) :
  _total s = Num 0 ->
  length (children s) <= 1 ->
  search (mkRequest (filters s) (limit s) (currentOffset s) true) = Ok response ->
  strict_eq_zero (totalCount response) = false ->
  let s' := snd (Pageable.loadMore mkItem emptyLabel search s) in
  _total s' = totalCount response
  /\ children s'
     = map (fun x => mkItem (name x) (id x)) (data response)
       ++ (if gt_length (totalCount response) (length (data response))
           then [LoadMoreNode] else []).
Proof.
  intros Ht Hlen Hfetch Hnz s'.
  assert (Hreq : Pageable.request (Pageable.discardTrailing s)
                 = mkRequest (filters s) (limit s) (currentOffset s) true).
  { rewrite request_discardTrailing. unfold Pageable.request. rewrite Ht. reflexivity. }
  destruct (discardTrailing_fields s) as (_ & _ & _ & Ht1).
  assert (Hc1 : children (Pageable.discardTrailing s) = []).
  { rewrite discardTrailing_children.
    destruct (children s) as [|x [|y l]]; simpl in *; try reflexivity; lia. }
  unfold s', Pageable.loadMore. rewrite Hreq, Hfetch. simpl.
  rewrite accept_total, accept_children. unfold total_after.
  rewrite Ht1, Ht, Hc1. simpl. rewrite Hnz. auto.
Qed.

Lemma loadMore_leaves_empty_state_witness :
  let empty := snd (AccessProfilesTreeItem.loadMore (fetchPage [])
                      AccessProfilesTreeItem.new) in
  children empty = [MessageNode "No access profile found"]
  /\ children (snd (AccessProfilesTreeItem.loadMore (fetchPage ten) empty))
     = map (fun x => AccessProfileTreeItem (name x) (id x)) ten.
Proof.
  intros empty. split; [reflexivity|].
  destruct (loadMore_leaves_empty_state AccessProfileTreeItem
              "No access profile found" (fetchPage ten) empty
              (mkResponse ten (Num 10)) eq_refl ltac:(simpl; lia) eq_refl eq_refl)
    as [_ H].
  etrans; [exact H|]. reflexivity.
Defined.

(** ** The administrative operations, call by call *)

Section OperationLogs.

Variable toUpperCase : string -> string.
Variable Enum_Success Enum_Warning : string.
Variable w : World.

Abbreviation resetAccounts'' := (resetAccounts toUpperCase Enum_Success Enum_Warning w).
Abbreviation resetEntitlements'' :=
  (resetEntitlements toUpperCase Enum_Success Enum_Warning w).
Abbreviation aggregateEntitlements'' :=
  (aggregateEntitlements toUpperCase Enum_Success Enum_Warning w).
Abbreviation aggregateSource'' :=
  (aggregateSource toUpperCase Enum_Success Enum_Warning w).
Abbreviation resetSource'' := (resetSource toUpperCase Enum_Success Enum_Warning w).
Abbreviation formatTask'' := (formatTask toUpperCase Enum_Success Enum_Warning).

Lemma formatTask_log t label m1 m2 m3 :
  snd (formatTask'' t label m1 m2 m3) = []
  \/ exists c m, snd (formatTask'' t label m1 m2 m3) = [ShowMessage c m label].
Proof.
  unfold formatTask. destruct (category_of _ _ _ _); simpl; eauto.
Qed.

Lemma resetAccounts_log fuel item :
  snd (resetAccounts'' fuel item false)
  = StartAccountReset (source_id item)
    :: match startAccountReset w (clientOf item) (source_id item) with
       | Ok job =>
           after_start
             (waifForJob w fuel (clientOf item) (job_id job)
                (isCancellationRequested w
                   ("Resetting accounts from " +:+ source_label item)))
             (fun t => formatTask'' t (source_label item)
                         "Accounts for {0} successfully resetted"
                         "Warning during account reset of {0}: {1}"
                         "Reset of accounts for {0} failed: {1}: {2}")
       | Throw _ => []
       end.
Proof.
  unfold resetAccounts, withProgress, after_start.
  rewrite snd_bind. simpl. rewrite snd_bind.
  destruct (startAccountReset w (clientOf item) (source_id item)) as [job|e];
    simpl; [|reflexivity].
  rewrite snd_bind. f_equal. f_equal.
  destruct (fst _); try reflexivity.
  rewrite snd_bind, formatTask_done. simpl. rewrite app_nil_r. reflexivity.
Qed.

Lemma resetEntitlements_log fuel item :
  snd (resetEntitlements'' fuel item false)
  = StartEntitlementReset (source_id item)
    :: match startEntitlementReset w (clientOf item) (source_id item) with
       | Ok job =>
           after_start
             (waifForJob w fuel (clientOf item) (job_id job)
                (isCancellationRequested w
                   ("Resetting entitlements from " +:+ source_label item)))
             (fun t => formatTask'' t (source_label item)
                         "Entitlements for {0} successfully resetted"
                         "Warning during entitlement reset of {0}: {1}"
                         "Reset of entitlements for {0} failed: {1}: {2}")
       | Throw _ => []
       end.
Proof.
  unfold resetEntitlements, withProgress, after_start.
  rewrite snd_bind. simpl. rewrite snd_bind, snd_bind, fst_bind.
  destruct (startEntitlementReset w (clientOf item) (source_id item)) as [job|e];
    simpl; [|reflexivity].
  rewrite snd_bind, fst_bind. f_equal.
  destruct (fst (waifForJob _ _ _ _ _)); simpl; rewrite ?app_nil_r; try reflexivity.
  rewrite snd_bind, fst_bind, formatTask_done. simpl.
  rewrite !app_nil_r. reflexivity.
Qed.

Lemma aggregateEntitlements_log fuel item :
  snd (aggregateEntitlements'' fuel item)
  = StartEntitlementAggregation (source_id item)
    :: match startEntitlementAggregation w (clientOf item) (source_id item) with
       | Ok job =>
           after_start
             (waifForJob w fuel (clientOf item) (job_id job)
                (isCancellationRequested w
                   ("Aggregation entitlements from " +:+ source_label item)))
             (fun t => formatTask'' t (source_label item)
                         "Source entitlements {0} successfully aggregated"
                         "Warning during aggregation of {0}: {1}"
                         "Aggregation of entitlements for {0} failed: {1}: {2}")
       | Throw _ => []
       end.
Proof.
  unfold aggregateEntitlements, withProgress, after_start.
  rewrite snd_bind.
  destruct (startEntitlementAggregation w (clientOf item) (source_id item))
    as [job|e]; simpl; [|reflexivity].
  rewrite snd_bind. reflexivity.
Qed.

Lemma aggregateSource_log fuel item disableOptimization :
  snd (aggregateSource'' fuel item disableOptimization)
  = StartAccountAggregation (source_id item) disableOptimization
    :: match startAccountAggregation w (clientOf item) (source_id item)
               disableOptimization with
       | Ok job =>
           after_start
             (waifForJob w fuel (clientOf item) (job_id (task job))
                (isCancellationRequested w
                   ("Aggregation accounts from " +:+ source_label item)))
             (fun t => formatTask'' t (source_label item)
                         "Source {0} successfully aggregated"
                         "Warning during aggregation of {0}: {1}"
                         "Aggregation of {0} failed: {1}: {2}")
       | Throw _ => []
       end.
Proof.
  unfold aggregateSource, withProgress, after_start.
  rewrite snd_bind.
  destruct (startAccountAggregation w (clientOf item) (source_id item)
              disableOptimization) as [job|e]; simpl; [|reflexivity].
  rewrite snd_bind. reflexivity.
Qed.

(** After its start call a job body only fetches the status of the task it
    polls, waits, and shows at most one message. *)
Lemma after_start_calls fuel client taskId token label m1 m2 m3 :
  Forall (fun c => c = GetTaskStatus taskId \/ c = Delay
                   \/ exists cat m, c = ShowMessage cat m label)
         (after_start (waifForJob w fuel client taskId token)
                      (fun t => formatTask'' t label m1 m2 m3)).
Proof.
  unfold after_start. apply Forall_app. split.
  - eapply Forall_impl; [apply waifForJob_log|]. intros c [H|H]; auto.
  - destruct (fst _) as [t| |]; try constructor.
    destruct (formatTask_log t label m1 m2 m3) as [-> | (c & m & ->)];
      [constructor | constructor; [right; right; eauto | constructor]].
Qed.

End OperationLogs.

Section OperationFacts.

Variable toUpperCase : string -> string.
Variable Enum_Success Enum_Warning : string.
Variable w : World.

Abbreviation resetAccounts3 := (resetAccounts toUpperCase Enum_Success Enum_Warning w).
Abbreviation resetEntitlements3 :=
  (resetEntitlements toUpperCase Enum_Success Enum_Warning w).
Abbreviation resetSource3 := (resetSource toUpperCase Enum_Success Enum_Warning w).

(** The log of [resetSource]: the prompt, then the account phase, then the
    entitlement phase when the gate opens. *)
Lemma resetSource_log fuel item :
  snd (resetSource3 fuel item)
  = Confirm ("Are you sure you want to reset the source "
             +:+ source_label item +:+ "?")
    :: if answer w ("Are you sure you want to reset the source "
                    +:+ source_label item +:+ "?")
       then snd (resetAccounts3 fuel item false)
            ++ (if gate_open toUpperCase Enum_Success
                     (fst (resetAccounts3 fuel item false))
                then snd (resetEntitlements3 fuel item false)
                else [])
       else [].
Proof.
  unfold resetSource. rewrite snd_bind. unfold confirm at 1 2.
  rewrite fst_bind, snd_bind. simpl.
  destruct (answer w _); simpl; [|reflexivity].
  rewrite snd_bind. do 2 f_equal.
  destruct (fst (resetAccounts3 fuel item false)) as [[t|]|e|]; simpl;
    try reflexivity.
  unfold status_is. destruct (completionStatus t) as [st|]; [|reflexivity].
  destruct (String.eqb (toUpperCase st) (toUpperCase Enum_Success)); [|reflexivity].
  rewrite snd_bind. destruct (fst _); simpl; rewrite ?app_nil_r; reflexivity.
Qed.

Lemma count_after_start (p : Call -> bool) fuel client taskId token label m1 m2 m3 :
  p (GetTaskStatus taskId) = false -> p Delay = false ->
  (forall cat m, p (ShowMessage cat m label) = false) ->
  count p (after_start (waifForJob w fuel client taskId token)
             (fun t => formatTask toUpperCase Enum_Success Enum_Warning
                         t label m1 m2 m3)) = 0.
Proof.
  intros Hg Hd Hm. apply count_none.
  eapply Forall_impl; [apply after_start_calls|].
  intros c [-> | [-> | (cat & m & ->)]]; auto.
Qed.

Lemma resetAccounts_no_prompt fuel item :
  count is_Confirm (snd (resetAccounts3 fuel item false)) = 0.
Proof.
  rewrite resetAccounts_log.
  change (?c :: ?l) with ([c] ++ l). rewrite count_app. simpl.
  destruct (startAccountReset w _ _); [|reflexivity].
  apply count_after_start; reflexivity.
Qed.

Lemma resetEntitlements_no_prompt fuel item :
  count is_Confirm (snd (resetEntitlements3 fuel item false)) = 0.
Proof.
  rewrite resetEntitlements_log.
  change (?c :: ?l) with ([c] ++ l). rewrite count_app. simpl.
  destruct (startEntitlementReset w _ _); [|reflexivity].
  apply count_after_start; reflexivity.
Qed.

End OperationFacts.

(** X7. [resetSource] asks the user for confirmation exactly once in every
    run, whatever the user answers and however the two phases go: the
    phases are entered with their own confirmation switched off. *)
Theorem resetSource_prompts_once (toUpperCase : string -> string)
        (Enum_Success Enum_Warning : string) (w : World) (fuel : nat)
        (item : SourceTreeItem) :
  count is_Confirm
        (snd (resetSource toUpperCase Enum_Success Enum_Warning w fuel item)) = 1.
Proof.
  rewrite resetSource_log.
  change (?c :: ?l) with ([c] ++ l). rewrite count_app. simpl.
  destruct (answer w _); [|reflexivity].
  rewrite count_app, resetAccounts_no_prompt.
  destruct (gate_open _ _ _); [|reflexivity].
  rewrite resetEntitlements_no_prompt. reflexivity.
Qed.

(** X8. [resetSource] runs its phases in order: its calls are the prompt,
    then (when confirmed) all calls of the account reset, then, only when
    the account reset returned a task with completion status Success, all
    calls of the entitlement reset.  An error thrown by the account reset
    is thrown by [resetSource], and nothing follows it. *)
Theorem resetSource_phases_in_order (toUpperCase : string -> string)
        (Enum_Success Enum_Warning : string) (w : World) (fuel : nat)
        (item : SourceTreeItem) :
  let prompt := ("Are you sure you want to reset the source "
                 +:+ source_label item +:+ "?")%string in
  let accounts :=
    resetAccounts toUpperCase Enum_Success Enum_Warning w fuel item false in
  let entitlements :=
    resetEntitlements toUpperCase Enum_Success Enum_Warning w fuel item false in
  let run := resetSource toUpperCase Enum_Success Enum_Warning w fuel item in
  snd run
  = Confirm prompt
    :: (if answer w prompt
        then snd accounts
             ++ (if gate_open toUpperCase Enum_Success (fst accounts)
                 then snd entitlements else [])
        else [])
  /\ (forall e, answer w prompt = true -> fst accounts = Thrown e ->
        run = (Thrown e, Confirm prompt :: snd accounts)).
Proof.
  intros prompt accounts entitlements run. split.
  - apply resetSource_log.
  - intros e Ha He.
    assert (Hlog := resetSource_log toUpperCase Enum_Success Enum_Warning w fuel item).
    fold prompt accounts run in Hlog. rewrite Ha, He in Hlog. simpl in Hlog.
    rewrite app_nil_r in Hlog.
    rewrite (surjective_pairing run), Hlog. f_equal.
    unfold run, resetSource. rewrite fst_bind. unfold confirm.
    rewrite fst_bind. simpl. fold prompt. rewrite Ha. simpl.
    rewrite fst_bind. fold accounts. rewrite He. reflexivity.
Qed.

Lemma resetSource_phases_in_order_witness :
  let failing :=
    mkWorld (fun _ => true) (fun _ _ => Throw "401"%string)
            (fun _ _ => Ok (mkJob "reset-entitlements"))
            (fun _ _ => Ok (mkJob "aggregate-entitlements"))
            (fun _ _ _ => Ok (mkLoadAccountsTask (mkJob "aggregate-accounts")))
            (fun _ taskId _ => Ok (mkTask taskId None []))
            (fun _ _ => false) in
  resetSource toUpperCase_ascii "SUCCESS" "WARNING" failing 3 HR
  = (Thrown "401",
     [Confirm "Are you sure you want to reset the source HR?";
      StartAccountReset "2c91"]).
Proof.
  intros failing.
  exact (proj2 (resetSource_phases_in_order toUpperCase_ascii "SUCCESS" "WARNING"
                  failing 3 HR) "401"%string eq_refl eq_refl).
Defined.

(** X9. When the job-start call of an operation throws, the operation
    throws that error and has made no other call: no status fetch, no
    message. *)
Theorem start_failure_propagates (toUpperCase : string -> string)
        (Enum_Success Enum_Warning : string) (w : World) (fuel : nat)
        (item : SourceTreeItem) (e : string) :
  (startAccountReset w (clientOf item) (source_id item) = Throw e ->
   resetAccounts toUpperCase Enum_Success Enum_Warning w fuel item false
   = (Thrown e, [StartAccountReset (source_id item)]))
  /\ (startEntitlementReset w (clientOf item) (source_id item) = Throw e ->
      resetEntitlements toUpperCase Enum_Success Enum_Warning w fuel item false
      = (Thrown e, [StartEntitlementReset (source_id item)]))
  /\ (startEntitlementAggregation w (clientOf item) (source_id item) = Throw e ->
      aggregateEntitlements toUpperCase Enum_Success Enum_Warning w fuel item
      = (Thrown e, [StartEntitlementAggregation (source_id item)]))
  /\ (forall disableOptimization,
        startAccountAggregation w (clientOf item) (source_id item)
          disableOptimization = Throw e ->
        aggregateSource toUpperCase Enum_Success Enum_Warning w fuel item
          disableOptimization
        = (Thrown e, [StartAccountAggregation (source_id item) disableOptimization])).
Proof.
  repeat split; [intros H | intros H | intros H | intros d H];
    unfold resetAccounts, resetEntitlements, aggregateEntitlements,
      aggregateSource, withProgress, bind, await, ret;
    rewrite H; reflexivity.
Qed.

Lemma start_failure_propagates_witness :
  let failing :=
    mkWorld (fun _ => true) (fun _ _ => Throw "401"%string)
            (fun _ _ => Throw "401"%string) (fun _ _ => Throw "401"%string)
            (fun _ _ _ => Throw "401"%string)
            (fun _ taskId _ => Ok (mkTask taskId None []))
            (fun _ _ => false) in
  aggregateSource toUpperCase_ascii "SUCCESS" "WARNING" failing 3 HR true
  = (Thrown "401", [StartAccountAggregation "2c91" true]).
Proof.
  intros failing.
  exact (proj2 (proj2 (proj2 (start_failure_propagates toUpperCase_ascii
           "SUCCESS" "WARNING" failing 3 HR "401"))) true eq_refl).
Defined.

(** X10. When the user declines the confirmation, the operation returns
    without a value having made no backend call at all. *)
Theorem declined_operations_do_nothing (toUpperCase : string -> string)
        (Enum_Success Enum_Warning : string) (w : World) (fuel : nat)
        (item : SourceTreeItem) :
  let accounts := ("Are you sure you want to reset accounts for "
                   +:+ source_label item +:+ "?")%string in
  let entitlements := ("Are you sure you want to reset entitlements for "
                       +:+ source_label item +:+ "?")%string in
  let source := ("Are you sure you want to reset the source "
                 +:+ source_label item +:+ "?")%string in
  (answer w accounts = false ->
   resetAccounts toUpperCase Enum_Success Enum_Warning w fuel item true
   = (Done None, [Confirm accounts]))
  /\ (answer w entitlements = false ->
      resetEntitlements toUpperCase Enum_Success Enum_Warning w fuel item true
      = (Done None, [Confirm entitlements]))
  /\ (answer w source = false ->
      resetSource toUpperCase Enum_Success Enum_Warning w fuel item
      = (Done tt, [Confirm source])).
Proof.
  intros accounts entitlements source.
  repeat split; intros H;
    unfold resetAccounts, resetEntitlements, resetSource, confirm, bind, call, ret;
    fold accounts entitlements source; rewrite H; reflexivity.
Qed.

Lemma declined_operations_do_nothing_witness :
  resetSource toUpperCase_ascii "SUCCESS" "WARNING"
    (world (fun _ => Some "SUCCESS"%string) 9 false) 3 HR
  = (Done tt, [Confirm "Are you sure you want to reset the source HR?"]).
Proof.
  exact (proj2 (proj2 (declined_operations_do_nothing toUpperCase_ascii
           "SUCCESS" "WARNING" (world (fun _ => Some "SUCCESS"%string) 9 false)
           3 HR)) eq_refl).
Defined.

(** X11. Every status fetch an operation makes is for the job its own
    start call returned: [job.id] for the two resets and the entitlement
    aggregation, [job.task.id] for the account aggregation. *)
Theorem operations_poll_their_own_job (toUpperCase : string -> string)
        (Enum_Success Enum_Warning : string) (w : World) (fuel : nat)
        (item : SourceTreeItem) :
  (forall job, startAccountReset w (clientOf item) (source_id item) = Ok job ->
     Forall (fun c => is_GetTaskStatus c = true -> c = GetTaskStatus (job_id job))
       (snd (resetAccounts toUpperCase Enum_Success Enum_Warning w fuel item false)))
  /\ (forall job, startEntitlementReset w (clientOf item) (source_id item) = Ok job ->
     Forall (fun c => is_GetTaskStatus c = true -> c = GetTaskStatus (job_id job))
       (snd (resetEntitlements toUpperCase Enum_Success Enum_Warning w fuel item false)))
  /\ (forall job,
     startEntitlementAggregation w (clientOf item) (source_id item) = Ok job ->
     Forall (fun c => is_GetTaskStatus c = true -> c = GetTaskStatus (job_id job))
       (snd (aggregateEntitlements toUpperCase Enum_Success Enum_Warning w fuel item)))
  /\ (forall job disableOptimization,
     startAccountAggregation w (clientOf item) (source_id item) disableOptimization
     = Ok job ->
     Forall (fun c => is_GetTaskStatus c = true
                      -> c = GetTaskStatus (job_id (task job)))
       (snd (aggregateSource toUpperCase Enum_Success Enum_Warning w fuel item
               disableOptimization))).
Proof.
  assert (Hbody : forall taskId title m1 m2 m3,
    Forall (fun c => is_GetTaskStatus c = true -> c = GetTaskStatus taskId)
      (after_start (waifForJob w fuel (clientOf item) taskId
                      (isCancellationRequested w title))
         (fun t => formatTask toUpperCase Enum_Success Enum_Warning t
                     (source_label item) m1 m2 m3))).
  { intros taskId title m1 m2 m3.
    eapply Forall_impl; [apply after_start_calls|].
    intros c [-> | [-> | (cat & m & ->)]]; simpl; intros H;
      [reflexivity | discriminate | discriminate]. }
  repeat split.
  - intros job H. rewrite resetAccounts_log, H.
    constructor; [discriminate | apply Hbody].
  - intros job H. rewrite resetEntitlements_log, H.
    constructor; [discriminate | apply Hbody].
  - intros job H. rewrite aggregateEntitlements_log, H.
    constructor; [discriminate | apply Hbody].
  - intros job d H. rewrite aggregateSource_log, H.
    constructor; [discriminate | apply Hbody].
Qed.

Lemma operations_poll_their_own_job_witness :
  Forall (fun c => is_GetTaskStatus c = true -> c = GetTaskStatus "aggregate-accounts")
    (snd (aggregateSource toUpperCase_ascii "SUCCESS" "WARNING"
            (world (fun n => if (n <? 2)%nat then None else Some "SUCCESS"%string)
                   9 true) 5 HR false)).
Proof.
  exact (proj2 (proj2 (proj2 (operations_poll_their_own_job toUpperCase_ascii
           "SUCCESS" "WARNING"
           (world (fun n => if (n <? 2)%nat then None else Some "SUCCESS"%string) 9 true)
           5 HR))) (mkLoadAccountsTask (mkJob "aggregate-accounts")) false eq_refl).
Defined.

(** ** Removing a tenant *)

(** Membership in a list written out. *)
Ltac list_in :=
  repeat first [apply list_elem_of_here | apply list_elem_of_further].

Ltac list_cases H :=
  repeat (apply elem_of_cons in H as [H|H]; [try discriminate H|]);
  try (apply elem_of_nil in H; destruct H).

Lemma tenantName_or_empty (n : string) :
  (if String.eqb n "" then ""%string else n) = n.
Proof.
  destruct (String.eqb n "") eqn:E; [|reflexivity].
  apply String.eqb_eq in E. congruence.
Qed.

(** X12. [removeTenant] throws before any dialog when it is handed nothing
    or a node that is not a tenant; and unless the user presses exactly
    "Yes" (another button, or the dialog dismissed) it returns having
    shown the dialog and made no other call. *)
Theorem removeTenant_needs_tenant_and_yes (tw : TenantWorld) (item : TenantTreeItem) :
  let prompt := ("Are you sure you want to delete tenant "
                 +:+ tenant_tenantName item +:+ "?")%string in
  removeTenant tw Undefined = (Thrown "removeTenant: invalid item", [])
  /\ removeTenant tw OtherItem = (Thrown "removeTenant: invalid item", [])
  /\ (pressed tw prompt <> Some "Yes"%string ->
      removeTenant tw (IsTenant item) = (Done tt, [ShowWarningMessage prompt])).
Proof.
  intros prompt. split; [reflexivity|]. split; [reflexivity|].
  intros Hno. unfold removeTenant. rewrite tenantName_or_empty. fold prompt.
  destruct (pressed tw prompt) as [response|]; [|reflexivity].
  destruct (String.eqb response "Yes") eqn:E; [|reflexivity].
  apply String.eqb_eq in E. congruence.
Qed.

Lemma removeTenant_needs_tenant_and_yes_witness :
  removeTenant (mkTenantWorld (fun _ => Some "No"%string)
                  (fun _ => Ok (Some (mkSession "s1"))) (fun _ => Ok tt))
    (IsTenant (mkTenantTreeItem "t1" "acme"))
  = (Done tt, [ShowWarningMessage "Are you sure you want to delete tenant acme?"]).
Proof.
  apply (removeTenant_needs_tenant_and_yes
           (mkTenantWorld (fun _ => Some "No"%string)
              (fun _ => Ok (Some (mkSession "s1"))) (fun _ => Ok tt))
           (mkTenantTreeItem "t1" "acme")).
  discriminate.
Defined.

(** X13. Once "Yes" is pressed, the tenant service is asked to remove the
    tenant whatever the session lookup does, a throwing lookup included; a
    session is removed exactly when the lookup found one.  The refresh and
    the success message follow only when the removal succeeded; when it
    throws, [removeTenant] throws its error and neither happens. *)
Theorem removeTenant_after_yes (tw : TenantWorld) (item : TenantTreeItem) :
  let prompt := ("Are you sure you want to delete tenant "
                 +:+ tenant_tenantName item +:+ "?")%string in
  let run := removeTenant tw (IsTenant item) in
  pressed tw prompt = Some "Yes"%string ->
  RemoveTenant (tenant_tenantId item) ∈ snd run
  /\ (forall sid, RemoveSession sid ∈ snd run
                  <-> getSession tw (tenant_tenantId item) = Ok (Some (mkSession sid)))
  /\ (forall e, removeTenantOf tw (tenant_tenantId item) = Throw e ->
        fst run = Thrown e
        /\ (ExecuteRefreshForced ∉ snd run)
        /\ (forall m, ShowInformationMessage m ∉ snd run))
  /\ (forall u, removeTenantOf tw (tenant_tenantId item) = Ok u ->
        fst run = Done tt
        /\ last (snd run)
           = Some (ShowInformationMessage
                     ("Successfully deleted tenant " +:+ tenant_tenantName item))).
Proof.
  intros prompt run Hyes. unfold run, removeTenant.
  rewrite tenantName_or_empty. fold prompt. rewrite Hyes. simpl.
  destruct (getSession tw (tenant_tenantId item)) as [[[sid']|]|err];
    destruct (removeTenantOf tw (tenant_tenantId item)) as [[]|e']; simpl.
  all: split; [list_in|].
  all: split;
    [intros sid; split;
     [intros Hin; list_cases Hin; try congruence
     | intros Hs; inversion Hs; subst; list_in]|].
  all: split; [intros e He | intros u Hu].
  all: try discriminate.
  all: try (injection He as <-).
  all: split; try reflexivity.
  all: split; [|intros m]; intros Hin; list_cases Hin.
Qed.

Lemma removeTenant_after_yes_witness :
  let tw := mkTenantWorld (fun _ => Some "Yes"%string)
              (fun _ => Throw "no session"%string) (fun _ => Ok tt) in
  removeTenant tw (IsTenant (mkTenantTreeItem "t1" "acme"))
  = (Done tt,
     [ShowWarningMessage "Are you sure you want to delete tenant acme?";
      GetSession "t1"; RemoveTenant "t1"; ExecuteRefreshForced;
      ShowInformationMessage "Successfully deleted tenant acme"])
  /\ RemoveTenant "t1" ∈ snd (removeTenant tw (IsTenant (mkTenantTreeItem "t1" "acme"))).
Proof.
  intros tw. split; [reflexivity|].
  exact (proj1 (removeTenant_after_yes tw (mkTenantTreeItem "t1" "acme") eq_refl)).
Defined.

(** ** utils/vsCodeHelpers *)

(** X14. [confirmFileOverwrite] returns true only with the path free
    afterwards; when it returns false or throws, the file system is as it
    was; no other path is ever touched; and it returns false only for a
    file that exists and a user who took "No" or nothing. *)
Theorem confirmFileOverwrite_frees_path (answer unlink : option string)
        (exportFile : string) (fs : gset string) :
  let r := confirmFileOverwrite answer unlink exportFile fs in
  (fst r = Ok true -> exportFile ∉ snd r)
  /\ (fst r <> Ok true -> snd r = fs)
  /\ (forall p, p <> exportFile -> (p ∈ snd r <-> p ∈ fs))
  /\ (fst r = Ok false ->
      exportFile ∈ fs /\ (answer = None \/ answer = Some "No"%string)).
Proof.
  unfold confirmFileOverwrite.
  destruct (decide (exportFile ∈ fs)) as [Hin|Hout]; simpl.
  - destruct answer as [a|]; simpl.
    + destruct (String.eqb a "No") eqn:E; simpl.
      * apply String.eqb_eq in E. subst a.
        repeat split; auto; try congruence; try discriminate.
      * destruct unlink as [e|]; simpl.
        -- repeat split; auto; try congruence; try discriminate.
        -- repeat split; try congruence; try discriminate; intros;
             rewrite ?elem_of_difference, ?elem_of_singleton in *;
             intuition congruence.
    + repeat split; auto; try congruence; try discriminate.
  - repeat split; auto; try congruence; try discriminate.
Qed.

(** X15. [chooseTenant] never prompts with fewer than two tenants: with
    none it returns nothing, with one it returns that tenant; with two or
    more it shows the sorted names once and returns the user's pick. *)
Theorem chooseTenant_prompts_from_two (sort : list string -> list string)
        (pick : list string -> option string) (getTenants : list string) :
  (forall l, sort l ≡ₚ l) ->
  (getTenants = [] -> chooseTenant sort pick getTenants = (None, []))
  /\ (forall t, getTenants = [t] -> chooseTenant sort pick getTenants = (Some t, []))
  /\ (2 <= length getTenants ->
      chooseTenant sort pick getTenants
      = (pick (sort getTenants), [sort getTenants])).
Proof.
  intros Hsort. unfold chooseTenant. repeat split.
  - intros ->. rewrite (proj1 (Permutation_nil_r _) (Hsort [])). reflexivity.
  - intros t ->.
    rewrite (proj1 (Permutation_singleton_r _ _) (Hsort [t])). reflexivity.
  - intros Hlen. rewrite <- (Permutation_length (Hsort getTenants)) in Hlen.
    destruct (Nat.ltb_spec (length (sort getTenants)) 1); [lia|].
    destruct (Nat.eqb_spec (length (sort getTenants)) 1); [lia|]. reflexivity.
Qed.

Lemma chooseTenant_prompts_from_two_witness :
  let sort := @merge_sort string (fun a b => String.leb a b = true)
                (fun a b => bool_eq_dec (String.leb a b) true) in
  chooseTenant sort (fun options => options !! 1) ["zeta"; "acme"; "mid"]%string
  = (Some "mid"%string, [["acme"; "mid"; "zeta"]%string]).
Proof.
  intros sort.
  etrans; [apply (proj2 (proj2 (chooseTenant_prompts_from_two sort
                     (fun options => options !! 1) ["zeta"; "acme"; "mid"]%string
                     (merge_sort_Permutation _)))); simpl; lia|].
  reflexivity.
Defined.

(** ** SourceTreeItem *)

Lemma substring_all (s : string) : String.substring 0 (String.length s) s = s.
Proof. induction s as [|a s IH]; simpl; [reflexivity | rewrite IH; reflexivity]. Qed.

Lemma replace_space_cons (a : ascii) (s : string) :
  replace " " "" (String a s)
  = if Ascii.eqb a " " then s else String a (replace " " "" s).
Proof.
  change (replace " " "" (String a s))
    with (if String.prefix " " (String a s)
          then (("" : string)
                +:+ String.substring 1 (String.length (String a s) - 1) (String a s))%string
          else String a (replace " " "" s)).
  change (String.prefix " " (String a s))
    with (match ascii_dec " " a with
          | left _ => String.prefix "" s
          | right _ => false
          end).
  destruct (ascii_dec " " a) as [<-|Hne].
  - replace (String.prefix "" s) with true by (destruct s; reflexivity).
    change (("" : string) +:+ ?x) with x.
    change (String.length (String " " s) - 1) with (String.length s - 0).
    rewrite Nat.sub_0_r.
    change (String.substring 1 (String.length s) (String " " s))
      with (String.substring 0 (String.length s) s).
    apply substring_all.
  - destruct (Ascii.eqb_spec a " ") as [->|_]; [congruence | reflexivity].
Qed.

Lemma append_assoc (a b c : string) : ((a +:+ b) +:+ c = a +:+ (b +:+ c))%string.
Proof.
  induction a as [|x a IH]; [reflexivity|].
  change (String x ((a +:+ b) +:+ c) = String x (a +:+ (b +:+ c)))%string.
  rewrite IH. reflexivity.
Qed.

(** X16. The context value of a source is its type without its first
    space, followed by "source": a type without a space is kept whole, and
    only the first space of a type is removed, later ones stay. *)
Theorem contextValue_drops_first_space (before after : string) :
  occurs " " before = false ->
  SourceTreeItem_contextValue before = (before +:+ "source")%string
  /\ SourceTreeItem_contextValue (before +:+ " " +:+ after)
     = (before +:+ after +:+ "source")%string.
Proof.
  intros Hno. unfold SourceTreeItem_contextValue.
  assert (H : replace " " "" before = before
              /\ replace " " "" (before +:+ " " +:+ after) = (before +:+ after)%string).
  { induction before as [|a s IH].
    - split; [reflexivity|].
      change (("" : string) +:+ " " +:+ after)%string with (String " " after).
      rewrite replace_space_cons. reflexivity.
    - simpl in Hno. apply orb_false_elim in Hno as [Ha Hs].
      destruct (IH Hs) as [IH1 IH2].
      change (String a s +:+ " " +:+ after)%string
        with (String a (s +:+ " " +:+ after)).
      rewrite !replace_space_cons, Ha, IH1, IH2. split; reflexivity. }
  destruct H as [-> ->]. split; [reflexivity|]. apply append_assoc.
Qed.

Lemma contextValue_drops_first_space_witness :
  SourceTreeItem_contextValue "Active Directory - Direct"
  = "ActiveDirectory - Directsource"%string.
Proof.
  exact (proj2 (contextValue_drops_first_space "Active" "Directory - Direct" eq_refl)).
Defined.
